(** * tap-mailchimp: pagination, request parameters and record normalisation

    A shallow embedding of [tap_mailchimp/client.py] and
    [tap_mailchimp/streams.py].  Python dictionaries are finite maps with
    string keys (dictionary equality in Python ignores insertion order), and a
    generator is the list of values it yields together with the exception, if
    any, that ends it. *)

From stdpp Require Import gmap strings list fin_maps.
From Stdlib Require Import ZArith Ascii.

Open Scope Z_scope.

(** ** Python values *)

(** [datetime.datetime]: the wall-clock fields as seconds since the epoch and
    the UTC offset in seconds ([None] for a naive value). *)
Record datetime := mk_datetime { dt_wall : Z; dt_offset : option Z }.

(** The values a decoded JSON body, a record or a query parameter can hold
    (JSON numbers are restricted to integers). *)
#[warnings="-register-all"]
Inductive pyval :=
  | VNone
  | VBool (b : bool)
  | VInt (z : Z)
  | VStr (s : string)
  | VList (l : list pyval)
  | VDict (d : gmap string pyval)
  | VDatetime (t : datetime).

Inductive pyerr := KeyError | TypeError | ValueError.

(** The result of an expression that may raise. *)
Inductive res (A : Type) :=
  | Ok (a : A)
  | Raise (e : pyerr).
Arguments Ok {A} a.
Arguments Raise {A} e.

#[global] Instance res_ret : MRet res := λ A a, Ok a.
#[global] Instance res_bind : MBind res := λ A B k r,
  match r with
  | Ok a => k a
  | Raise e => Raise e
  end.

(** A generator run to its end: what it yielded, and the exception that
    stopped it ([None] when it returned normally). *)
Definition gen (A : Type) : Type := list A * option pyerr.

(** Truth value of a Python object, as tested by [if x:] and [not x]. *)
Definition truthy (v : pyval) : bool :=
  match v with
  | VNone => false
  | VBool b => b
  | VInt z => negb (z =? 0)
  | VStr s => negb (String.eqb s "")
  | VList l => match l with [] => false | _ => true end
  | VDict d => negb (Nat.eqb (size d) 0)
  | VDatetime _ => true
  end.

(** [obj[key]] for a string key. *)
Definition getitem (obj : pyval) (key : string) : res pyval :=
  match obj with
  | VDict d => match d !! key with Some v => Ok v | None => Raise KeyError end
  | _ => Raise TypeError
  end.

(** [d[key]] on a dictionary. *)
Definition dict_getitem (d : gmap string pyval) (key : string) : res pyval :=
  match d !! key with Some v => Ok v | None => Raise KeyError end.

(** [len(obj)] *)
Definition len (obj : pyval) : res nat :=
  match obj with
  | VList l => Ok (length l)
  | VStr s => Ok (String.length s)
  | VDict d => Ok (size d)
  | _ => Raise TypeError
  end.

(** The items a [for] loop over [obj] visits.  A dictionary is iterated by
    its keys. *)
Definition iterate (obj : pyval) : res (list pyval) :=
  match obj with
  | VList l => Ok l
  | VStr s => Ok ((λ c, VStr (String c "")) <$> String.list_ascii_of_string s)
  | VDict d => Ok ((λ kv, VStr kv.1) <$> map_to_list d)
  | _ => Raise TypeError
  end.

(** [{**a, **b}]: the entries of [b] win. *)
Definition dict_unpack (a b : gmap string pyval) : gmap string pyval := b ∪ a.

(** [a >= b] on two datetimes: two aware values are compared as instants, two
    naive ones by their fields, and a naive with an aware one raises. *)
Definition datetime_ge (a b : datetime) : res bool :=
  match dt_offset a, dt_offset b with
  | Some oa, Some ob => Ok (dt_wall b - ob <=? dt_wall a - oa)
  | None, None => Ok (dt_wall b <=? dt_wall a)
  | _, _ => Raise TypeError
  end.

(** [a >= b] where [b] is an optional datetime ([None] cannot be ordered). *)
Definition ge_starting (a : datetime) (b : option datetime) : res bool :=
  match b with
  | Some b => datetime_ge a b
  | None => Raise TypeError
  end.

(** ** A reader of ISO-8601 timestamps

    An instance of the interface of [dateutil.parser.isoparse], for the
    extended forms [YYYY-MM-DD], [YYYY-MM-DDThh:mm:ss] and the latter followed
    by [Z] or [±hh:mm]; any other string is rejected here.  The streams below
    take the parser as a parameter; this instance is used to run them. *)

Definition digit (c : ascii) : option Z :=
  let n := Z.of_N (N_of_ascii c) in
  if (48 <=? n) && (n <=? 57) then Some (n - 48) else None.

Definition num2 (a b : ascii) : option Z :=
  x ← digit a; y ← digit b; Some (10 * x + y).

Definition num4 (a b c d : ascii) : option Z :=
  x ← num2 a b; y ← num2 c d; Some (100 * x + y).

Definition is_leap (y : Z) : bool :=
  ((y mod 4 =? 0) && negb (y mod 100 =? 0)) || (y mod 400 =? 0).

Definition days_in_month (y m : Z) : Z :=
  if m =? 2 then (if is_leap y then 29 else 28)
  else if (m =? 4) || (m =? 6) || (m =? 9) || (m =? 11) then 30 else 31.

(** Days from 1970-01-01 to the given civil date. *)
Definition days_from_civil (y m d : Z) : Z :=
  let y' := if m <=? 2 then y - 1 else y in
  let era := y' / 400 in
  let yoe := y' - era * 400 in
  let doy := (153 * (if 2 <? m then m - 3 else m + 9) + 2) / 5 + d - 1 in
  let doe := yoe * 365 + yoe / 4 - yoe / 100 + doy in
  era * 146097 + doe - 719468.

Definition parse_date (s : string) : option (Z * string) :=
  match s with
  | String y1 (String y2 (String y3 (String y4 (String "-"
      (String m1 (String m2 (String "-" (String d1 (String d2 rest))))))))) =>
      y ← num4 y1 y2 y3 y4; m ← num2 m1 m2; d ← num2 d1 d2;
      if (1 <=? m) && (m <=? 12) && (1 <=? d) && (d <=? days_in_month y m)
      then Some (days_from_civil y m d, rest) else None
  | _ => None
  end.

Definition parse_clock (s : string) : option (Z * string) :=
  match s with
  | String h1 (String h2 (String ":" (String m1 (String m2 (String ":"
      (String s1 (String s2 rest))))))) =>
      h ← num2 h1 h2; m ← num2 m1 m2; x ← num2 s1 s2;
      if (h <=? 23) && (m <=? 59) && (x <=? 59)
      then Some (3600 * h + 60 * m + x, rest) else None
  | _ => None
  end.

Definition parse_zone (s : string) : option (option Z) :=
  match s with
  | "" => Some None
  | "Z" => Some (Some 0)
  | String sg (String h1 (String h2 (String ":" (String m1 (String m2 ""))))) =>
      h ← num2 h1 h2; m ← num2 m1 m2;
      if (h <=? 23) && (m <=? 59) then
        if Ascii.eqb sg "+" then Some (Some (3600 * h + 60 * m))
        else if Ascii.eqb sg "-" then Some (Some (- (3600 * h + 60 * m)))
        else None
      else None
  | _ => None
  end.

Definition iso8601_opt (s : string) : option datetime :=
  '(days, rest) ← parse_date s;
  match rest with
  | "" => Some (mk_datetime (86400 * days) None)
  | String "T" rest =>
      '(secs, rest) ← parse_clock rest;
      off ← parse_zone rest;
      Some (mk_datetime (86400 * days + secs) off)
  | _ => None
  end.

Definition iso8601 (v : pyval) : res datetime :=
  match v with
  | VStr s => match iso8601_opt s with Some t => Ok t | None => Raise ValueError end
  | _ => Raise TypeError
  end.

(** ** client.py *)

Definition PAGE_SIZE : Z := 1000.

(** A decoded HTTP response; [json r] is [response.json()]. *)
Record response := mk_response { json : pyval }.

(** *** [MailchimpPaginator] *)

(** Modelled from the spec: the base class [BaseOffsetPaginator] belongs to
    the singer_sdk package and is not among the sources.  Following the
    spec's pagination engine, a paginator holds the current offset, the page
    size and a finished flag; it starts at [start_value], and advancing it
    over a response either stops (when [has_more] is false) or adds the page
    size to the offset. *)
Record paginator := mk_paginator {
  pg_response_key : string;
  current_value : Z;
  page_size_of : Z;
  finished : bool
}.

(** [MailchimpPaginator.__init__]: [start_value=0], [page_size=PAGE_SIZE]. *)
Definition MailchimpPaginator (response_key : string) : paginator :=
  {| pg_response_key := response_key;
     current_value := 0;
     page_size_of := PAGE_SIZE;
     finished := false |}.

(** [MailchimpPaginator.has_more]:
    [len(response.json()[self.response_key])] *)
Definition has_more (self : paginator) (r : response) : res nat :=
  v ← getitem (json r) (pg_response_key self); len v.

(** Modelled from the spec: [BaseOffsetPaginator.advance] (singer_sdk, not
    among the sources).  "If the list is empty, returns None (stop).
    Otherwise returns previousToken + pageSize." *)
Definition advance (self : paginator) (r : response) : res paginator :=
  n ← has_more self r;
  if Nat.eqb n 0 then
    Ok {| pg_response_key := pg_response_key self;
          current_value := current_value self;
          page_size_of := page_size_of self;
          finished := true |}
  else
    Ok {| pg_response_key := pg_response_key self;
          current_value := current_value self + page_size_of self;
          page_size_of := page_size_of self;
          finished := false |}.

(** How a pagination loop ended: the paginator finished, an exception
    escaped, or the loop is waiting for a response that was not supplied. *)
Inductive outcome := Finished | Raised (e : pyerr) | Awaiting.

(** Modelled from the spec: the request loop of the SDK's
    [RESTStream.request_records] (not among the sources): while the paginator
    is not finished, request the page at the current token, then advance the
    paginator over the response.  [resps] are the responses the server gives
    to the successive requests; the result lists the tokens requested.  An
    exception of the step is recorded as [Raised e]; whether the SDK's loop
    reaches the step at all for a response without records differs between
    SDK versions, so the statements below use the outcome of such a response
    only to tell a loop that still runs from one that has ended. *)
Fixpoint paginate (pg : paginator) (resps : list response) : list Z * outcome :=
  if finished pg then ([], Finished) else
  match resps with
  | [] => ([], Awaiting)
  | r :: rest =>
      match advance pg r with
      | Raise e => ([current_value pg], Raised e)
      | Ok pg' =>
          let '(toks, o) := paginate pg' rest in (current_value pg :: toks, o)
      end
  end.

(** *** Stream classes (streams.py) and their class attributes *)

Inductive stream :=
  | CampaignsStream
  | ReportsEmailActivity
  | ListsStream
  | ListsMembersStream
  | ReportsUnsubscribes.

Definition name (self : stream) : string :=
  match self with
  | CampaignsStream => "campaigns"
  | ReportsEmailActivity => "reports_email_activity"
  | ListsStream => "lists"
  | ListsMembersStream => "lists_members"
  | ReportsUnsubscribes => "reports_unsubscribes"
  end.

Definition path (self : stream) : string :=
  match self with
  | CampaignsStream => "/campaigns"
  | ReportsEmailActivity => "/reports/{campaign_id}/email-activity"
  | ListsStream => "/lists"
  | ListsMembersStream => "/lists/{list_id}/members"
  | ReportsUnsubscribes => "/reports/{campaign_id}/unsubscribed"
  end.

Definition response_key (self : stream) : string :=
  match self with
  | CampaignsStream => "campaigns"
  | ReportsEmailActivity => "emails"
  | ListsStream => "lists"
  | ListsMembersStream => "members"
  | ReportsUnsubscribes => "unsubscribes"
  end.

(** [MailchimpStream.exclude_fields], overridden by [ListsMembersStream]. *)
Definition exclude_fields (self : stream) : list string :=
  match self with
  | ListsMembersStream => ["_links"; "merge_fields"; "location"]
  | _ => ["_links"]
  end.

Definition parent_stream_type (self : stream) : option stream :=
  match self with
  | ReportsEmailActivity => Some CampaignsStream
  | ListsMembersStream => Some ListsStream
  | ReportsUnsubscribes => Some CampaignsStream
  | _ => None
  end.

Definition replication_key (self : stream) : option string :=
  match self with
  | ReportsEmailActivity => Some "timestamp"
  | ListsMembersStream => Some "last_changed"
  | ReportsUnsubscribes => Some "timestamp"
  | _ => None
  end.

(** The [is_sorted] attribute as the class bodies of streams.py give it:
    [ReportsUnsubscribes] sets it to [False]; for the other classes [None]
    records that the body does not set it, so that the value read at run
    time is the default of the SDK base class, which is not among the
    sources. *)
Definition is_sorted (self : stream) : option bool :=
  match self with
  | ReportsUnsubscribes => Some false
  | _ => None
  end.

(** [MailchimpStream.page_size] *)
Definition page_size (self : stream) : Z := PAGE_SIZE.

(** [MailchimpStream.get_new_paginator] *)
Definition get_new_paginator (self : stream) : paginator :=
  MailchimpPaginator (response_key self).

(** The pagination of one (stream, context) execution. *)
Definition request_records (self : stream) (resps : list response)
  : list Z * outcome :=
  paginate (get_new_paginator self) resps.

(** [v == ""] *)
Definition is_empty_str (v : pyval) : bool :=
  match v with
  | VStr s => String.eqb s ""
  | _ => false
  end.

(** [None if v == "" else v] *)
Definition null_if_empty (v : pyval) : pyval :=
  if is_empty_str v then VNone else v.

(** [MailchimpStream.post_process]:
    [{k: None if v == "" else v for k, v in row.items()}] *)
Definition post_process (row : gmap string pyval) : gmap string pyval :=
  null_if_empty <$> row.

(** [','.join(f'{self.response_key}.{fname}' for fname in self.exclude_fields)] *)
Definition excluded_param (self : stream) : string :=
  String.concat "," ((λ fname, response_key self +:+ "." +:+ fname)
                       <$> exclude_fields self).

(** [MailchimpStream.get_url_params] *)
Definition MailchimpStream_get_url_params
    (self : stream) (next_page_token : pyval) : gmap string pyval :=
  let params : gmap string pyval := ∅ in
  let params :=
    if truthy next_page_token then <["offset" := next_page_token]> params
    else params in
  let params :=
    match exclude_fields self with
    | [] => params
    | _ :: _ => <["exclude_fields" := VStr (excluded_param self)]> params
    end in
  <["count" := VInt (page_size self)]> params.

Section Streams.

(** The SDK's [get_starting_timestamp]: the starting replication value of a
    context, [None] when neither a bookmark nor a start date exists. *)
Variable get_starting_timestamp : option (gmap string pyval) → option datetime.

(** [dateutil.parser.isoparse]: the datetime a value denotes, or the
    exception the parser raises on it. *)
Variable isoparse : pyval → res datetime.

Definition starting_value (context : option (gmap string pyval)) : pyval :=
  match get_starting_timestamp context with
  | Some t => VDatetime t
  | None => VNone
  end.

(** [get_url_params], with the overrides of the three incremental
    streams. *)
Definition get_url_params (self : stream)
    (context : option (gmap string pyval)) (next_page_token : pyval)
  : gmap string pyval :=
  let params := MailchimpStream_get_url_params self next_page_token in
  match self with
  | ReportsEmailActivity => <["since" := starting_value context]> params
  | ListsMembersStream => <["since_last_changed" := starting_value context]> params
  | ReportsUnsubscribes => <["since" := starting_value context]> params
  | _ => params
  end.

(** [ReportsUnsubscribes.get_records] over the records that
    [request_records] yields. *)
Fixpoint ReportsUnsubscribes_get_records
    (context : option (gmap string pyval))
    (records : list (gmap string pyval)) : gen (gmap string pyval) :=
  match records with
  | [] => ([], None)
  | record :: rest =>
      let transformed_record := post_process record in
      let test : res bool :=
        ts ← dict_getitem record "timestamp";
        t ← isoparse ts;
        ge_starting t (get_starting_timestamp context) in
      match test with
      | Raise e => ([], Some e)
      | Ok keep =>
          let '(more, e) := ReportsUnsubscribes_get_records context rest in
          (if keep then record :: more else more, e)
      end
  end.

End Streams.

(** ** streams.py *)

(** [CampaignsStream.get_child_context] *)
Definition CampaignsStream_get_child_context
    (record : gmap string pyval) (context : option (gmap string pyval))
  : res (gmap string pyval) :=
  v ← dict_getitem record "id"; Ok {["campaign_id" := v]}.

(** [ListsStream.get_child_context] *)
Definition ListsStream_get_child_context
    (record : gmap string pyval) (context : option (gmap string pyval))
  : res (gmap string pyval) :=
  v ← dict_getitem record "id"; Ok {["list_id" := v]}.

(** The inner loop of [ReportsEmailActivity.get_records]:
    [for activity in activities: yield {**transformed_record, **activity}]. *)
Fixpoint yield_merged (transformed_record : gmap string pyval)
    (activities : list pyval) : gen (gmap string pyval) :=
  match activities with
  | [] => ([], None)
  | VDict activity :: rest =>
      let '(more, e) := yield_merged transformed_record rest in
      (dict_unpack transformed_record activity :: more, e)
  | _ :: _ => ([], Some TypeError)
  end.

(** One turn of the outer loop of [ReportsEmailActivity.get_records]. *)
Definition expand_record (record : gmap string pyval) : gen (gmap string pyval) :=
  let transformed_record := post_process record in
  match transformed_record !! "activity" with
  | None => ([], Some KeyError)
  | Some activities =>
      let transformed_record := delete "activity" transformed_record in
      match iterate activities with
      | Raise e => ([], Some e)
      | Ok items => yield_merged transformed_record items
      end
  end.

(** [ReportsEmailActivity.get_records] over the records that
    [request_records] yields. *)
Fixpoint ReportsEmailActivity_get_records
    (records : list (gmap string pyval)) : gen (gmap string pyval) :=
  match records with
  | [] => ([], None)
  | record :: rest =>
      match expand_record record with
      | (out, Some e) => (out, Some e)
      | (out, None) =>
          let '(more, e) := ReportsEmailActivity_get_records rest in
          (out ++ more, e)
      end
  end.

(** Modelled from the spec: "Substitute context values into the path
    template".  The substitution is done by the SDK's [get_url], which is not
    among the sources.  Each [{key}] whose key the context binds to a string
    is replaced by that string; other text is kept. *)
Fixpoint fill_path (context : gmap string pyval) (template : string)
    (key : option string) : string :=
  match template with
  | "" => match key with Some k => "{" +:+ k | None => "" end
  | String c rest =>
      match key with
      | None =>
          if Ascii.eqb c "{" then fill_path context rest (Some "")
          else String c (fill_path context rest None)
      | Some k =>
          if Ascii.eqb c "}" then
            match context !! k with
            | Some (VStr v) => v
            | _ => "{" +:+ k +:+ "}"
            end +:+ fill_path context rest None
          else fill_path context rest (Some (k +:+ String c ""))
      end
  end.

Definition resolve_path (self : stream) (context : gmap string pyval) : string :=
  fill_path context (path self) None.

(** ** Configuration-dependent properties of a stream (client.py) and the
    stream catalogue (tap.py)

    The configuration is the mapping the tap was started with; its schema
    ([config_jsonschema]) declares [api_key], [start_date] and [dc], all of
    them strings. *)

(** [MailchimpStream.url_base]:
    [dc = self.config['dc']; f"https://{dc}.api.mailchimp.com/3.0"] *)
Definition url_base (config : gmap string string) : res string :=
  match config !! "dc" with
  | Some dc => Ok ("https://" +:+ dc +:+ ".api.mailchimp.com/3.0")
  | None => Raise KeyError
  end.

(** [MailchimpStream.http_headers] *)
Definition http_headers (config : gmap string string) : gmap string string :=
  let headers : gmap string string := ∅ in
  match config !! "user_agent" with
  | Some user_agent => <["User-Agent" := user_agent]> headers
  | None => headers
  end.

#[global] Instance stream_eq_dec : EqDecision stream.
Proof. solve_decision. Defined.

(** [Tapmailchimp.discover_streams] *)
Definition discover_streams : list stream :=
  [ CampaignsStream; ReportsEmailActivity; ReportsUnsubscribes;
    ListsStream; ListsMembersStream ].

(** [get_child_context] of the two classes that define it. *)
Definition get_child_context (self : stream)
    (record : gmap string pyval) (context : option (gmap string pyval))
  : option (res (gmap string pyval)) :=
  match self with
  | CampaignsStream => Some (CampaignsStream_get_child_context record context)
  | ListsStream => Some (ListsStream_get_child_context record context)
  | _ => None
  end.

(** ** Vocabulary of the statements *)

(** The response [r] carries the list [l] under the stream's response key. *)
Definition has_records (self : stream) (r : response) (l : list pyval) : Prop :=
  ∃ d, json r = VDict d ∧ d !! response_key self = Some (VList l).

Definition nonempty_page (self : stream) (r : response) : Prop :=
  ∃ l, has_records self r l ∧ l ≠ [].

Definition empty_page (self : stream) (r : response) : Prop :=
  has_records self r [].

(** The first [n] terms of [0, PAGE_SIZE, 2 * PAGE_SIZE, ...]. *)
Definition offsets (n : nat) : list Z :=
  (λ i, PAGE_SIZE * Z.of_nat i) <$> seq 0 n.

(** A paginator of the stream [self] that is still running. *)
Definition running (self : stream) (pg : paginator) : Prop :=
  pg_response_key pg = response_key self
  ∧ page_size_of pg = PAGE_SIZE
  ∧ finished pg = false.

(** The [timestamp] of the record [r] can be read by [isoparse] and compared
    with [sv]. *)
Definition comparable (isoparse : pyval → res datetime) (sv : datetime)
    (r : gmap string pyval) : Prop :=
  ∃ ts t b, r !! "timestamp" = Some ts ∧ isoparse ts = Ok t
            ∧ datetime_ge t sv = Ok b.

(** The [timestamp] of the record [r] is at least [sv]. *)
Definition at_least (isoparse : pyval → res datetime) (sv : datetime)
    (r : gmap string pyval) : Prop :=
  ∃ ts t, r !! "timestamp" = Some ts ∧ isoparse ts = Ok t
          ∧ datetime_ge t sv = Ok true.

(** The response [r] has a positive length under the stream's response key. *)
Definition has_data (self : stream) (r : response) : Prop :=
  ∃ n, has_more (get_new_paginator self) r = Ok (S n).

(** The test of [ReportsUnsubscribes.get_records] lets the record through. *)
Definition kept (isoparse : pyval → res datetime) (sv : datetime)
    (r : gmap string pyval) : bool :=
  match ts ← dict_getitem r "timestamp"; t ← isoparse ts; datetime_ge t sv with
  | Ok true => true
  | _ => false
  end.

(** The condition of the [if] in [ReportsUnsubscribes.get_records]:
    [isoparse(record['timestamp']) >= self.get_starting_timestamp(context)]. *)
Definition timestamp_test
    (get_starting_timestamp : option (gmap string pyval) → option datetime)
    (isoparse : pyval → res datetime)
    (context : option (gmap string pyval)) (record : gmap string pyval)
  : res bool :=
  ts ← dict_getitem record "timestamp"; t ← isoparse ts;
  ge_starting t (get_starting_timestamp context).

(** The characters that URL encoding leaves as they are: letters, digits,
    [-], [.], [_] and [~]. *)
Definition unreserved (c : ascii) : bool :=
  let n := Z.of_N (N_of_ascii c) in
  ((48 <=? n) && (n <=? 57)) || ((65 <=? n) && (n <=? 90))
  || ((97 <=? n) && (n <=? 122))
  || (n =? 45) || (n =? 46) || (n =? 95) || (n =? 126).

(** The string consists of such characters only. *)
Fixpoint url_safe (s : string) : bool :=
  match s with
  | "" => true
  | String c rest => unreserved c && url_safe rest
  end.

(** ** Properties of null coercion *)

Lemma is_empty_str_spec v : is_empty_str v = true ↔ v = VStr "".
Proof.
  destruct v as [| | |s| | |]; simpl; try (split; [done | discriminate]).
  rewrite String.eqb_eq. split; [by intros -> | by intros [= ->]].
Qed.

Lemma null_if_empty_empty : null_if_empty (VStr "") = VNone.
Proof. reflexivity. Qed.

Lemma null_if_empty_other v : v ≠ VStr "" → null_if_empty v = v.
Proof.
  intros Hv. unfold null_if_empty.
  destruct (is_empty_str v) eqn:E; [|done].
  by apply is_empty_str_spec in E.
Qed.

Lemma null_if_empty_idem v : null_if_empty (null_if_empty v) = null_if_empty v.
Proof.
  destruct (is_empty_str v) eqn:E.
  - apply is_empty_str_spec in E as ->. reflexivity.
  - unfold null_if_empty. by rewrite !E.
Qed.

Lemma post_process_lookup (row : gmap string pyval) k :
  post_process row !! k = null_if_empty <$> row !! k.
Proof. apply lookup_fmap. Qed.

Lemma post_process_delete (row : gmap string pyval) k :
  delete k (post_process row) = post_process (delete k row).
Proof. unfold post_process. by rewrite fmap_delete. Qed.

(** C4: null coercion is idempotent; it turns [{"last_changed": ""}] into
    [{"last_changed": None}]; it keeps the keys of the record, replaces the
    top-level values equal to the empty string by [None] and leaves every
    other value, nested structures included, as it is. *)
Theorem post_process_idempotent :
  (∀ row : gmap string pyval, post_process (post_process row) = post_process row)
  ∧ post_process {["last_changed" := VStr ""]} = {["last_changed" := VNone]}
  ∧ (∀ row : gmap string pyval, dom (post_process row) = dom row)
  ∧ (∀ (row : gmap string pyval) k,
       row !! k = Some (VStr "") → post_process row !! k = Some VNone)
  ∧ (∀ (row : gmap string pyval) k v,
       row !! k = Some v → v ≠ VStr "" → post_process row !! k = Some v).
Proof.
  split; [|split; [|split; [|split]]].
  - intros row. apply map_eq. intros k.
    rewrite !post_process_lookup. destruct (row !! k) as [v|]; simpl; [|done].
    by rewrite null_if_empty_idem.
  - unfold post_process. by rewrite map_fmap_singleton.
  - intros row. unfold post_process. apply dom_fmap_L.
  - intros row k Hk. by rewrite post_process_lookup, Hk.
  - intros row k v Hk Hv. rewrite post_process_lookup, Hk. simpl.
    by rewrite null_if_empty_other.
Qed.

Lemma post_process_idempotent_witness :
  let row : gmap string pyval :=
    {[ "last_changed" := VStr "";
       "stats" := VDict {[ "note" := VStr "" ]};
       "tags" := VList [VStr ""] ]} in
  post_process (post_process row) = post_process row
  ∧ post_process row !! "last_changed" = Some VNone
  ∧ post_process row !! "stats" = Some (VDict {[ "note" := VStr "" ]})
  ∧ post_process row !! "tags" = Some (VList [VStr ""]).
Proof.
  intros row.
  destruct post_process_idempotent as (Hidem & _ & _ & Hnull & Hkeep).
  split; [apply Hidem|].
  split; [apply Hnull; reflexivity|].
  split; (apply Hkeep; [reflexivity | discriminate]).
Defined.

(** ** Properties of the one-to-many expansion *)

Lemma dict_unpack_lookup (a b : gmap string pyval) k :
  dict_unpack a b !! k = match b !! k with Some v => Some v | None => a !! k end.
Proof.
  unfold dict_unpack. destruct (b !! k) as [v|] eqn:Hb.
  - by apply lookup_union_Some_l.
  - by rewrite lookup_union_r.
Qed.

Lemma yield_merged_dicts (parent : gmap string pyval)
    (items : list (gmap string pyval)) :
  yield_merged parent (VDict <$> items) = (dict_unpack parent <$> items, None).
Proof.
  induction items as [|a items IH]; csimpl; [done|]. by rewrite IH.
Qed.

Lemma expand_record_list (record : gmap string pyval)
    (items : list (gmap string pyval)) :
  record !! "activity" = Some (VList (VDict <$> items)) →
  expand_record record =
    (dict_unpack (delete "activity" (post_process record)) <$> items, None).
Proof.
  intros Hact. unfold expand_record.
  rewrite post_process_lookup, Hact. simpl.
  apply yield_merged_dicts.
Qed.

Lemma expand_record_missing (record : gmap string pyval) :
  record !! "activity" = None → expand_record record = ([], Some KeyError).
Proof.
  intros Hact. unfold expand_record. by rewrite post_process_lookup, Hact.
Qed.

Lemma get_records_cons_ok (record : gmap string pyval) rest out :
  expand_record record = (out, None) →
  ReportsEmailActivity_get_records (record :: rest) =
    (out ++ (ReportsEmailActivity_get_records rest).1,
     (ReportsEmailActivity_get_records rest).2).
Proof.
  intros H. simpl. rewrite H.
  by destruct (ReportsEmailActivity_get_records rest).
Qed.

Lemma get_records_app_ok (pre rest : list (gmap string pyval)) out :
  ReportsEmailActivity_get_records pre = (out, None) →
  ReportsEmailActivity_get_records (pre ++ rest) =
    (out ++ (ReportsEmailActivity_get_records rest).1,
     (ReportsEmailActivity_get_records rest).2).
Proof.
  revert out. induction pre as [|r pre IH]; intros out H.
  - injection H as <-. simpl. by destruct (ReportsEmailActivity_get_records rest).
  - simpl in *. destruct (expand_record r) as [o [e|]]; [done|].
    destruct (ReportsEmailActivity_get_records pre) as [more e] eqn:Hpre.
    injection H as <- ->. rewrite (IH more eq_refl). simpl.
    by rewrite (assoc_L (++)).
Qed.

(** C6: a record whose [activity] field is a list of [n] items is expanded
    into exactly [n] records, in the order of the items, each being the
    (null-coerced) parent record without its [activity] field merged with
    one item; the record [{"campaign_id": "x", "activity": [{"action":
    "open"}, {"action": "click"}]}] gives [{"campaign_id": "x", "action":
    "open"}] and then [{"campaign_id": "x", "action": "click"}]. *)
Theorem expansion_one_per_activity :
  (∀ (record : gmap string pyval) (items : list (gmap string pyval)) rest,
     record !! "activity" = Some (VList (VDict <$> items)) →
     let emitted :=
       dict_unpack (post_process (delete "activity" record)) <$> items in
     length emitted = length items
     ∧ ReportsEmailActivity_get_records [record] = (emitted, None)
     ∧ ReportsEmailActivity_get_records (record :: rest) =
         (emitted ++ (ReportsEmailActivity_get_records rest).1,
          (ReportsEmailActivity_get_records rest).2))
  ∧ ReportsEmailActivity_get_records
      [ {[ "campaign_id" := VStr "x";
           "activity" := VList [ VDict {[ "action" := VStr "open" ]};
                                 VDict {[ "action" := VStr "click" ]} ] ]} ]
    = ([ {[ "campaign_id" := VStr "x"; "action" := VStr "open" ]};
         {[ "campaign_id" := VStr "x"; "action" := VStr "click" ]} ], None).
Proof.
  split.
  - intros record items rest Hact emitted.
    pose proof (expand_record_list record items Hact) as Hexp.
    rewrite post_process_delete in Hexp. fold emitted in Hexp.
    split; [apply length_fmap|]. split.
    + rewrite (get_records_cons_ok _ [] _ Hexp). simpl. by rewrite app_nil_r.
    + apply get_records_cons_ok, Hexp.
  - vm_compute. reflexivity.
Qed.

Lemma expansion_one_per_activity_witness :
  let record : gmap string pyval :=
    {[ "campaign_id" := VStr "x"; "email_id" := VStr "";
       "activity" := VList (VDict <$> [ {[ "action" := VStr "open" ]};
                                        {[ "action" := VStr "click" ]};
                                        {[ "action" := VStr "bounce" ]} ]) ]} in
  ReportsEmailActivity_get_records [record] =
    ([ {[ "campaign_id" := VStr "x"; "email_id" := VNone; "action" := VStr "open" ]};
       {[ "campaign_id" := VStr "x"; "email_id" := VNone; "action" := VStr "click" ]};
       {[ "campaign_id" := VStr "x"; "email_id" := VNone; "action" := VStr "bounce" ]} ],
     None).
Proof.
  intros record.
  destruct expansion_one_per_activity as [Hgen _].
  destruct (Hgen record
              [ {[ "action" := VStr "open" ]}; {[ "action" := VStr "click" ]};
                {[ "action" := VStr "bounce" ]} ] [] eq_refl) as (_ & Hrun & _).
  rewrite Hrun. vm_compute. reflexivity.
Defined.

(** C9: a fetched record without an [activity] field makes
    [ReportsEmailActivity.get_records] raise [KeyError]: nothing is emitted
    for that record, and no later record is processed. *)
Theorem expansion_requires_activity :
  ∀ (pre : list (gmap string pyval)) (record : gmap string pyval) rest out,
    ReportsEmailActivity_get_records pre = (out, None) →
    record !! "activity" = None →
    expand_record record = ([], Some KeyError)
    ∧ ReportsEmailActivity_get_records (pre ++ record :: rest)
      = (out, Some KeyError).
Proof.
  intros pre record rest out Hpre Hact.
  pose proof (expand_record_missing record Hact) as Hexp.
  split; [done|].
  rewrite (get_records_app_ok pre (record :: rest) out Hpre).
  simpl. rewrite Hexp. simpl. by rewrite app_nil_r.
Qed.

Lemma expansion_requires_activity_witness :
  ReportsEmailActivity_get_records
    ([ {[ "campaign_id" := VStr "x";
          "activity" := VList [ VDict {[ "action" := VStr "open" ]} ] ]} ]
     ++ {[ "campaign_id" := VStr "y" ]}
     :: [ {[ "campaign_id" := VStr "z"; "activity" := VList [] ]} ])
  = ([ {[ "campaign_id" := VStr "x"; "action" := VStr "open" ]} ], Some KeyError).
Proof.
  eapply expansion_requires_activity.
  - vm_compute. reflexivity.
  - reflexivity.
Defined.

(** C10: in the expansion, a field of the activity item overrides the field
    of the same name in the parent record. *)
Theorem activity_overrides_parent :
  ∀ (record : gmap string pyval) (items : list (gmap string pyval))
    (i : nat) (activity : gmap string pyval) k v,
    record !! "activity" = Some (VList (VDict <$> items)) →
    items !! i = Some activity →
    activity !! k = Some v →
    ∃ out, (ReportsEmailActivity_get_records [record]).1 !! i = Some out
           ∧ out !! k = Some v
           ∧ (∀ k', activity !! k' = None →
                out !! k' = delete "activity" (post_process record) !! k').
Proof.
  intros record items i activity k v Hact Hi Hk.
  pose proof (expand_record_list record items Hact) as Hexp.
  rewrite (get_records_cons_ok _ [] _ Hexp). simpl. rewrite app_nil_r.
  exists (dict_unpack (delete "activity" (post_process record)) activity).
  split; [by rewrite list_lookup_fmap, Hi|].
  split.
  - by rewrite dict_unpack_lookup, Hk.
  - intros k' Hk'. by rewrite dict_unpack_lookup, Hk'.
Qed.

Lemma activity_overrides_parent_witness :
  ∃ out,
    (ReportsEmailActivity_get_records
       [ {[ "campaign_id" := VStr "x"; "action" := VStr "sent";
            "activity" := VList (VDict <$> [ {[ "action" := VStr "open" ]} ]) ]} ]).1
      !! 0%nat = Some out
    ∧ out !! "action" = Some (VStr "open")
    ∧ (∀ k', ({[ "action" := VStr "open" ]} : gmap string pyval) !! k' = None →
         out !! k' =
         delete "activity"
           (post_process
              {[ "campaign_id" := VStr "x"; "action" := VStr "sent";
                 "activity" := VList (VDict <$> [ {[ "action" := VStr "open" ]} ]) ]})
           !! k').
Proof.
  apply (activity_overrides_parent _ [ {[ "action" := VStr "open" ]} ] 0%nat
           {[ "action" := VStr "open" ]} "action" (VStr "open"));
    reflexivity.
Defined.

(** ** Properties of pagination *)

Lemma running_new (self : stream) : running self (get_new_paginator self).
Proof. done. Qed.

Lemma has_more_records self pg r l :
  pg_response_key pg = response_key self →
  has_records self r l → has_more pg r = Ok (length l).
Proof.
  intros Hkey (d & Hjson & Hd). unfold has_more.
  rewrite Hjson, Hkey. simpl. by rewrite Hd.
Qed.

Lemma advance_nonempty self pg r :
  running self pg → nonempty_page self r →
  ∃ pg', advance pg r = Ok pg'
         ∧ running self pg'
         ∧ current_value pg' = current_value pg + PAGE_SIZE.
Proof.
  intros (Hkey & Hsize & Hfin) (l & Hl & Hne).
  unfold advance. rewrite (has_more_records self pg r l Hkey Hl). simpl.
  destruct l as [|x l]; [done|]. simpl.
  eexists. split; [done|]. split; [done|]. simpl. by rewrite Hsize.
Qed.

Lemma advance_empty self pg r :
  running self pg → empty_page self r →
  ∃ pg', advance pg r = Ok pg'
         ∧ finished pg' = true
         ∧ current_value pg' = current_value pg.
Proof.
  intros (Hkey & Hsize & Hfin) Hl.
  unfold advance. rewrite (has_more_records self pg r [] Hkey Hl). simpl.
  by eexists.
Qed.

Lemma paginate_finished pg resps :
  finished pg = true → paginate pg resps = ([], Finished).
Proof. intros H. destruct resps; simpl; by rewrite H. Qed.

Lemma offsets_from_cons (v : Z) (n : nat) :
  (λ i, v + PAGE_SIZE * Z.of_nat i) <$> seq 0 (S n)
  = v :: ((λ i, (v + PAGE_SIZE) + PAGE_SIZE * Z.of_nat i) <$> seq 0 n).
Proof.
  simpl. f_equal; [lia|].
  rewrite <- fmap_S_seq, <- list_fmap_compose.
  apply list_fmap_ext. intros _ i _. simpl. lia.
Qed.

Lemma offsets_from_zero (n : nat) :
  (λ i, 0 + PAGE_SIZE * Z.of_nat i) <$> seq 0 n = offsets n.
Proof. apply list_fmap_ext. intros _ i _. simpl. lia. Qed.

(** Over non-empty pages the loop requests one page after the other and is
    still running when the responses are used up. *)
Lemma paginate_nonempty self (pages : list response) : ∀ pg,
  running self pg →
  Forall (nonempty_page self) pages →
  paginate pg pages
  = ((λ i, current_value pg + PAGE_SIZE * Z.of_nat i) <$> seq 0 (length pages),
     Awaiting).
Proof.
  induction pages as [|r pages IH]; intros pg Hrun Hall.
  - destruct Hrun as (_ & _ & Hfin). simpl. by rewrite Hfin.
  - apply Forall_cons in Hall as [Hr Hall].
    destruct (advance_nonempty self pg r Hrun Hr) as (pg' & Hadv & Hrun' & Hval).
    pose proof Hrun as (_ & _ & Hfin).
    cbn [paginate length]. rewrite Hfin, Hadv, (IH pg' Hrun' Hall), Hval.
    by rewrite offsets_from_cons.
Qed.

(** The first empty page ends the loop, whatever responses would follow. *)
Lemma paginate_until_empty self (pages : list response) last rest : ∀ pg,
  running self pg →
  Forall (nonempty_page self) pages →
  empty_page self last →
  paginate pg (pages ++ last :: rest)
  = ((λ i, current_value pg + PAGE_SIZE * Z.of_nat i) <$> seq 0 (S (length pages)),
     Finished).
Proof.
  induction pages as [|r pages IH]; intros pg Hrun Hall Hlast.
  - destruct (advance_empty self pg last Hrun Hlast) as (pg' & Hadv & Hfin' & _).
    pose proof Hrun as (_ & _ & Hfin).
    cbn [paginate app length]. rewrite Hfin, Hadv, (paginate_finished pg' rest Hfin').
    simpl. do 2 f_equal. lia.
  - apply Forall_cons in Hall as [Hr Hall].
    destruct (advance_nonempty self pg r Hrun Hr) as (pg' & Hadv & Hrun' & Hval).
    pose proof Hrun as (_ & _ & Hfin).
    rewrite <- app_comm_cons. cbn [paginate length].
    rewrite Hfin, Hadv, (IH pg' Hrun' Hall Hlast), Hval.
    by rewrite (offsets_from_cons (current_value pg)).
Qed.

(** C1: pagination starts at offset 0 with page size 1000; over a response
    with a non-empty list under the response key the token grows by the page
    size, over one with an empty list the paginator finishes (no other field
    of the body is consulted); hence the loop runs through the non-empty
    pages, stops at the first empty one, and the offsets requested are
    0, 1000, 2000, ... *)
Theorem pagination_arithmetic (self : stream) :
  PAGE_SIZE = 1000
  ∧ current_value (get_new_paginator self) = 0
  ∧ running self (get_new_paginator self)
  ∧ (∀ pg r, running self pg → nonempty_page self r →
       ∃ pg', advance pg r = Ok pg' ∧ finished pg' = false
              ∧ current_value pg' = current_value pg + 1000)
  ∧ (∀ pg r, running self pg → empty_page self r →
       ∃ pg', advance pg r = Ok pg' ∧ finished pg' = true)
  ∧ (∀ pages, Forall (nonempty_page self) pages →
       request_records self pages = (offsets (length pages), Awaiting))
  ∧ (∀ pages last rest,
       Forall (nonempty_page self) pages → empty_page self last →
       request_records self (pages ++ last :: rest)
       = (offsets (S (length pages)), Finished)).
Proof.
  split; [done|]. split; [done|]. split; [apply running_new|].
  split; [|split; [|split]].
  - intros pg r Hrun Hr.
    destruct (advance_nonempty self pg r Hrun Hr) as (pg' & Hadv & Hrun' & Hval).
    exists pg'. split; [done|]. split; [apply Hrun' | done].
  - intros pg r Hrun Hr.
    destruct (advance_empty self pg r Hrun Hr) as (pg' & Hadv & Hfin & _).
    by exists pg'.
  - intros pages Hall. unfold request_records.
    rewrite (paginate_nonempty self pages _ (running_new self) Hall).
    by rewrite <- offsets_from_zero.
  - intros pages last rest Hall Hlast. unfold request_records.
    rewrite (paginate_until_empty self pages last rest _ (running_new self) Hall Hlast).
    by rewrite <- offsets_from_zero.
Qed.

Lemma pagination_arithmetic_witness :
  request_records CampaignsStream
    ([ mk_response (VDict {[ "campaigns" := VList [VDict {[ "id" := VStr "a" ]};
                                                     VDict {[ "id" := VStr "b" ]}];
                             "next_page" := VInt 5 ]});
       mk_response (VDict {[ "campaigns" := VList [VDict {[ "id" := VStr "c" ]}] ]}) ]
     ++ mk_response (VDict {[ "campaigns" := VList []; "next_page" := VInt 3000 ]})
     :: [ mk_response (VDict {[ "campaigns" := VList [VDict {[ "id" := VStr "d" ]}] ]}) ])
  = ([0; 1000; 2000], Finished).
Proof.
  destruct (pagination_arithmetic CampaignsStream) as (_ & _ & _ & _ & _ & _ & Hrun).
  apply Hrun.
  - repeat constructor;
      (eexists; split; [eexists; split; reflexivity | discriminate]).
  - eexists; split; reflexivity.
Defined.

(** *** A missing or unsized response key *)

Lemma advance_raises pg r e :
  has_more pg r = Raise e → advance pg r = Raise e.
Proof. intros H. unfold advance. by rewrite H. Qed.

Lemma has_more_missing self pg r d :
  pg_response_key pg = response_key self →
  json r = VDict d → d !! response_key self = None →
  has_more pg r = Raise KeyError.
Proof.
  intros Hkey Hjson Hd. unfold has_more. rewrite Hjson, Hkey. simpl. by rewrite Hd.
Qed.

Lemma has_more_field self pg r d v :
  pg_response_key pg = response_key self →
  json r = VDict d → d !! response_key self = Some v →
  has_more pg r = len v.
Proof.
  intros Hkey Hjson Hd. unfold has_more. rewrite Hjson, Hkey. simpl. by rewrite Hd.
Qed.

(** The claim of C2 fails: with the response key missing the pagination
    step raises [KeyError], and with [null] under the key it raises
    [TypeError], while over an empty list the same step signals "no more
    pages" without an error. *)
Lemma missing_key_is_not_empty_page :
  has_more (get_new_paginator CampaignsStream) (mk_response (VDict ∅))
    = Raise KeyError
  ∧ advance (get_new_paginator CampaignsStream) (mk_response (VDict ∅))
    = Raise KeyError
  ∧ has_more (get_new_paginator CampaignsStream)
      (mk_response (VDict {[ "campaigns" := VNone ]}))
    = Raise TypeError
  ∧ advance (get_new_paginator CampaignsStream)
      (mk_response (VDict {[ "campaigns" := VNone ]}))
    = Raise TypeError
  ∧ has_more (get_new_paginator CampaignsStream)
      (mk_response (VDict {[ "campaigns" := VList [] ]}))
    = Ok 0%nat
  ∧ (pg ← advance (get_new_paginator CampaignsStream)
             (mk_response (VDict {[ "campaigns" := VList [] ]}));
     Ok (finished pg))
    = Ok true.
Proof. repeat split; vm_compute; reflexivity. Qed.

(** C2 (amended): over a response object without the response key the
    pagination step ([has_more], and the paginator step that calls it)
    raises [KeyError] instead of signalling "no more pages"; over a body that
    is not an object, or a [null], boolean or number under the key, it raises
    [TypeError]; over an empty list under the key it signals "no more pages"
    without an error. *)
Theorem missing_response_key_raises (self : stream) :
  ∀ pg r, running self pg →
    (∀ d, json r = VDict d → d !! response_key self = None →
       has_more pg r = Raise KeyError ∧ advance pg r = Raise KeyError)
    ∧ ((∀ d, json r ≠ VDict d) →
       has_more pg r = Raise TypeError ∧ advance pg r = Raise TypeError)
    ∧ (∀ d v, json r = VDict d → d !! response_key self = Some v →
       v = VNone ∨ (∃ b, v = VBool b) ∨ (∃ z, v = VInt z) →
       has_more pg r = Raise TypeError ∧ advance pg r = Raise TypeError)
    ∧ (∀ d, json r = VDict d → d !! response_key self = Some (VList []) →
       has_more pg r = Ok 0%nat
       ∧ ∃ pg', advance pg r = Ok pg' ∧ finished pg' = true
                ∧ current_value pg' = current_value pg).
Proof.
  intros pg r (Hkey & Hsize & Hfin).
  assert (Hraise : ∀ e, has_more pg r = Raise e →
            has_more pg r = Raise e ∧ advance pg r = Raise e).
  { intros e He. split; [done | by apply advance_raises]. }
  split; [|split; [|split]].
  - intros d Hjson Hd. apply Hraise. by eapply has_more_missing.
  - intros Hjson. apply Hraise. unfold has_more.
    destruct (json r) as [| | | | |d|]; try done. by destruct (Hjson d).
  - intros d v Hjson Hd Hv. apply Hraise.
    rewrite (has_more_field self pg r d v Hkey Hjson Hd).
    by destruct Hv as [->|[[b ->]|[z ->]]].
  - intros d Hjson Hd.
    pose proof (has_more_field self pg r d _ Hkey Hjson Hd) as Hmore.
    simpl in Hmore. split; [done|].
    unfold advance. rewrite Hmore. simpl. by eexists.
Qed.

Lemma missing_response_key_raises_witness :
  has_more (get_new_paginator ListsStream)
    (mk_response (VDict {[ "total_items" := VInt 0 ]})) = Raise KeyError
  ∧ advance (get_new_paginator ListsStream)
      (mk_response (VDict {[ "total_items" := VInt 0 ]})) = Raise KeyError.
Proof.
  destruct (missing_response_key_raises ListsStream
              (get_new_paginator ListsStream)
              (mk_response (VDict {[ "total_items" := VInt 0 ]}))
              (running_new ListsStream)) as (Hmissing & _).
  apply (Hmissing {[ "total_items" := VInt 0 ]}); reflexivity.
Defined.

(** ** Properties of the query parameters *)

Lemma base_params_count self tok :
  MailchimpStream_get_url_params self tok !! "count" = Some (VInt PAGE_SIZE).
Proof. unfold MailchimpStream_get_url_params. by rewrite lookup_insert_eq. Qed.

Lemma base_params_offset self tok :
  MailchimpStream_get_url_params self tok !! "offset"
  = if truthy tok then Some tok else None.
Proof.
  unfold MailchimpStream_get_url_params.
  rewrite lookup_insert_ne by done.
  destruct (exclude_fields self); [|rewrite lookup_insert_ne by done];
    destruct (truthy tok); by simplify_map_eq.
Qed.

Lemma base_params_exclude self tok :
  MailchimpStream_get_url_params self tok !! "exclude_fields"
  = match exclude_fields self with
    | [] => None
    | _ :: _ => Some (VStr (excluded_param self))
    end.
Proof.
  unfold MailchimpStream_get_url_params.
  rewrite lookup_insert_ne by done.
  destruct (exclude_fields self); destruct (truthy tok); by simplify_map_eq.
Qed.

Lemma base_params_other self tok k :
  k ≠ "count" → k ≠ "offset" → k ≠ "exclude_fields" →
  MailchimpStream_get_url_params self tok !! k = None.
Proof.
  intros H1 H2 H3. unfold MailchimpStream_get_url_params.
  destruct (exclude_fields self); destruct (truthy tok); by simplify_map_eq.
Qed.

(** C3: the query parameters hold [count] = 1000; [offset] equal to the
    token exactly when the token is non-zero (a zero or absent token leaves
    it out); [exclude_fields] equal to the comma-joined
    ["{response_key}.{field}"] strings when the stream excludes fields; and,
    for the three incremental child streams, the filter [since]
    (reports_email_activity, reports_unsubscribes) or [since_last_changed]
    (lists_members) equal to the starting replication value of the
    context: the datetime [get_starting_timestamp] returns for it, or [None]
    when it returns none. *)
Theorem url_params_contents
    (get_starting_timestamp : option (gmap string pyval) → option datetime)
    (self : stream) (context : option (gmap string pyval)) (token : Z) :
  let params := get_url_params get_starting_timestamp self context (VInt token) in
  let start :=
    match get_starting_timestamp context with
    | Some t => VDatetime t
    | None => VNone
    end in
  params !! "count" = Some (VInt 1000)
  ∧ params !! "offset" = (if decide (token = 0) then None else Some (VInt token))
  ∧ get_url_params get_starting_timestamp self context VNone !! "offset" = None
  ∧ params !! "exclude_fields"
    = match exclude_fields self with
      | [] => None
      | _ :: _ =>
          Some (VStr (String.concat ","
                        ((λ field, response_key self +:+ "." +:+ field)
                           <$> exclude_fields self)))
      end
  ∧ match self with
    | ReportsEmailActivity | ReportsUnsubscribes =>
        params !! "since" = Some start ∧ params !! "since_last_changed" = None
    | ListsMembersStream =>
        params !! "since_last_changed" = Some start ∧ params !! "since" = None
    | CampaignsStream | ListsStream =>
        params !! "since" = None ∧ params !! "since_last_changed" = None
    end
  ∧ match replication_key self, parent_stream_type self with
    | Some _, Some _ =>
        params !! "since" = Some start ∨ params !! "since_last_changed" = Some start
    | _, _ => params !! "since" = None ∧ params !! "since_last_changed" = None
    end.
Proof.
  intros params start. subst params start. unfold get_url_params.
  assert (Hoff : MailchimpStream_get_url_params self (VInt token) !! "offset"
                 = if decide (token = 0) then None else Some (VInt token)).
  { rewrite base_params_offset. simpl.
    destruct (Z.eqb_spec token 0); case_decide; done. }
  pose proof (base_params_count self (VInt token)) as Hcount.
  pose proof (base_params_exclude self (VInt token)) as Hexcl.
  pose proof (base_params_offset self VNone) as Hnone.
  pose proof (base_params_other self (VInt token) "since") as Hs.
  pose proof (base_params_other self (VInt token) "since_last_changed") as Hl.
  destruct self; simplify_map_eq; repeat split; auto.
Qed.

(** ** Properties of context derivation *)

(** C7: from a campaigns record with an [id] field the child context is the
    single binding [campaign_id -> id], whatever else the record holds, and
    the path template of reports_email_activity is resolved with it: the
    record [{"id": "abc"}] gives [{"campaign_id": "abc"}] and the path
    [/reports/abc/email-activity]. *)
Theorem child_context_only_mapping :
  (∀ (record : gmap string pyval) context v,
     record !! "id" = Some v →
     CampaignsStream_get_child_context record context
       = Ok {[ "campaign_id" := v ]}
     ∧ dom ({[ "campaign_id" := v ]} : gmap string pyval)
       = ({[ "campaign_id" ]} : gset string))
  ∧ CampaignsStream_get_child_context {[ "id" := VStr "abc" ]} None
    = Ok {[ "campaign_id" := VStr "abc" ]}
  ∧ path ReportsEmailActivity = "/reports/{campaign_id}/email-activity"
  ∧ resolve_path ReportsEmailActivity {[ "campaign_id" := VStr "abc" ]}
    = "/reports/abc/email-activity".
Proof.
  split; [|split; [|split]]; try reflexivity.
  intros record context v Hid. split.
  - unfold CampaignsStream_get_child_context, dict_getitem. by rewrite Hid.
  - apply dom_singleton_L.
Qed.

Lemma child_context_only_mapping_witness :
  CampaignsStream_get_child_context
    {[ "id" := VStr "abc"; "web_id" := VInt 42; "status" := VStr "sent" ]} None
  = Ok {[ "campaign_id" := VStr "abc" ]}.
Proof.
  destruct child_context_only_mapping as [Hgen _].
  apply (Hgen _ None (VStr "abc")). reflexivity.
Defined.

(** ** Properties of the filter of the unsorted stream *)

Lemma unsubscribes_step get_starting_timestamp isoparse context sv
    (record : gmap string pyval) rest ts t b :
  get_starting_timestamp context = Some sv →
  record !! "timestamp" = Some ts → isoparse ts = Ok t →
  datetime_ge t sv = Ok b →
  ReportsUnsubscribes_get_records get_starting_timestamp isoparse context
    (record :: rest)
  = let run := ReportsUnsubscribes_get_records get_starting_timestamp isoparse
                 context rest in
    (if b then record :: run.1 else run.1, run.2).
Proof.
  intros Hsv Hts Ht Hb. simpl. unfold dict_getitem. rewrite Hts. simpl.
  rewrite Ht. simpl. rewrite Hsv. simpl. rewrite Hb.
  by destruct (ReportsUnsubscribes_get_records _ _ context rest).
Qed.

Lemma unsubscribes_filter get_starting_timestamp isoparse context sv
    (records : list (gmap string pyval)) :
  get_starting_timestamp context = Some sv →
  Forall (comparable isoparse sv) records →
  ∃ out,
    ReportsUnsubscribes_get_records get_starting_timestamp isoparse context
      records = (out, None)
    ∧ sublist out records
    ∧ ∀ r, r ∈ out ↔ r ∈ records ∧ at_least isoparse sv r.
Proof.
  intros Hsv. induction records as [|record rest IH]; intros Hall.
  - exists []. split; [done|]. split; [done|]. intros r.
    split; [by intros ?%elem_of_nil | by intros [?%elem_of_nil _]].
  - apply Forall_cons in Hall as [(ts & t & b & Hts & Ht & Hb) Hall].
    destruct (IH Hall) as (out & Hrun & Hsub & Hiff).
    rewrite (unsubscribes_step _ _ context sv record rest ts t b Hsv Hts Ht Hb).
    rewrite Hrun. simpl. destruct b.
    + exists (record :: out). split; [done|]. split; [by apply sublist_skip|].
      intros r. rewrite !elem_of_cons, Hiff. split.
      * intros [->|[Hin Hge]]; [|by auto]. split; [by left|]. by exists ts, t.
      * intros [[->|Hin] Hge]; [by left | by right].
    + exists out. split; [done|]. split; [by apply sublist_cons|].
      intros r. rewrite elem_of_cons, Hiff. split.
      * intros [Hin Hge]. by auto.
      * intros [[->|Hin] Hge]; [|done].
        destruct Hge as (ts' & t' & Hts' & Ht' & Hge). congruence.
Qed.

Lemma unsubscribes_filter_eq get_starting_timestamp isoparse context sv
    (records : list (gmap string pyval)) :
  get_starting_timestamp context = Some sv →
  Forall (comparable isoparse sv) records →
  ReportsUnsubscribes_get_records get_starting_timestamp isoparse context
    records
  = (filter (λ r, kept isoparse sv r = true) records, None).
Proof.
  intros Hsv. induction records as [|record rest IH]; intros Hall; [done|].
  apply Forall_cons in Hall as [(ts & t & b & Hts & Ht & Hb) Hall].
  rewrite (unsubscribes_step _ _ context sv record rest ts t b Hsv Hts Ht Hb).
  rewrite (IH Hall). simpl.
  assert (Hkept : kept isoparse sv record = b).
  { unfold kept, dict_getitem. rewrite Hts. simpl. rewrite Ht. simpl.
    rewrite Hb. by destruct b. }
  rewrite filter_cons. destruct b; case_decide; congruence.
Qed.

Lemma kept_iff_at_least isoparse sv (r : gmap string pyval) :
  kept isoparse sv r = true ↔ at_least isoparse sv r.
Proof.
  unfold kept, at_least, dict_getitem. split.
  - destruct (r !! "timestamp") as [ts|]; simpl; [|done].
    destruct (isoparse ts) as [t|e] eqn:Ht; simpl; [|done].
    destruct (datetime_ge t sv) as [[|]|e] eqn:Hge; try done.
    intros _. by exists ts, t.
  - intros (ts & t & -> & Ht & Hge). simpl. rewrite Ht. simpl. by rewrite Hge.
Qed.

Lemma datetime_ge_naive_aware (t sv : datetime) :
  dt_offset t = None → is_Some (dt_offset sv) →
  datetime_ge t sv = Raise TypeError.
Proof. intros Ht [o Ho]. unfold datetime_ge. by rewrite Ht, Ho. Qed.

(** The claim of C5 fails at its own example: with the starting value
    2023-01-10T00:00:00Z the date-only timestamps 2023-01-09 and 2023-01-11
    are read as naive datetimes, the comparison with the aware starting
    value raises [TypeError], and the record of 2023-01-11 is not emitted. *)
Lemma date_only_timestamps_raise :
  iso8601 (VStr "2023-01-10T00:00:00Z") = Ok (mk_datetime 1673308800 (Some 0))
  ∧ ReportsUnsubscribes_get_records
      (λ _, Some (mk_datetime 1673308800 (Some 0))) iso8601 None
      [ {[ "email_id" := VStr "a"; "timestamp" := VStr "2023-01-09" ]};
        {[ "email_id" := VStr "b"; "timestamp" := VStr "2023-01-11" ]} ]
    = ([], Some TypeError)
  ∧ ReportsUnsubscribes_get_records
      (λ _, Some (mk_datetime 1673308800 (Some 0))) iso8601 None
      [ {[ "email_id" := VStr "b"; "timestamp" := VStr "2023-01-11" ]} ]
    = ([], Some TypeError).
Proof. repeat split; vm_compute; reflexivity. Qed.

(** C5 (amended): reports_unsubscribes sets [is_sorted = False]; with a
    starting value [sv], over fetched records whose [timestamp] the parser
    reads and Python can order against [sv], its [get_records] ends normally
    and emits exactly the records whose timestamp is at least [sv], in their
    order of arrival and with their multiplicity, dropping the others.  A
    timestamp read as a naive datetime cannot be ordered against an aware
    starting value: the comparison raises [TypeError] and nothing is
    emitted for that record or after it. *)
Theorem unsorted_stream_filters
    (get_starting_timestamp : option (gmap string pyval) → option datetime)
    (isoparse : pyval → res datetime)
    (context : option (gmap string pyval)) (sv : datetime)
    (records : list (gmap string pyval)) :
  get_starting_timestamp context = Some sv →
  Forall (comparable isoparse sv) records →
  is_sorted ReportsUnsubscribes = Some false
  ∧ ReportsUnsubscribes_get_records get_starting_timestamp isoparse context
      records
    = (filter (λ r, kept isoparse sv r = true) records, None)
  ∧ (∀ r, kept isoparse sv r = true ↔ at_least isoparse sv r)
  ∧ (∃ out,
       ReportsUnsubscribes_get_records get_starting_timestamp isoparse context
         records = (out, None)
       ∧ sublist out records
       ∧ ∀ r, r ∈ out ↔ r ∈ records ∧ at_least isoparse sv r)
  ∧ (∀ (record : gmap string pyval) rest ts t,
       record !! "timestamp" = Some ts → isoparse ts = Ok t →
       dt_offset t = None → is_Some (dt_offset sv) →
       ReportsUnsubscribes_get_records get_starting_timestamp isoparse context
         (record :: rest) = ([], Some TypeError)).
Proof.
  intros Hsv Hall. split; [done|].
  split; [by apply unsubscribes_filter_eq|].
  split; [apply kept_iff_at_least|].
  split; [by apply unsubscribes_filter|].
  intros record rest ts t Hts Ht Hnaive Haware. simpl.
  unfold dict_getitem. rewrite Hts. simpl. rewrite Ht. simpl. rewrite Hsv. simpl.
  by rewrite (datetime_ge_naive_aware t sv Hnaive Haware).
Qed.

(** With the starting value 2023-01-10T00:00:00Z, the record of
    2023-01-09T00:00:00+00:00 is dropped and the record of
    2023-01-11T00:00:00+00:00 is emitted, once for each time it was
    fetched. *)
Lemma unsorted_stream_filters_witness :
  let start := mk_datetime 1673308800 (Some 0) in
  let older : gmap string pyval :=
    {[ "email_id" := VStr "a"; "timestamp" := VStr "2023-01-09T00:00:00+00:00" ]} in
  let newer : gmap string pyval :=
    {[ "email_id" := VStr "b"; "timestamp" := VStr "2023-01-11T00:00:00+00:00" ]} in
  iso8601 (VStr "2023-01-10T00:00:00Z") = Ok start
  ∧ ReportsUnsubscribes_get_records (λ _, Some start) iso8601 None
      [older; newer; newer]
    = ([newer; newer], None)
  ∧ ReportsUnsubscribes_get_records (λ _, Some start) iso8601 None
      [older; newer; newer]
    = (filter (λ r, kept iso8601 start r = true) [older; newer; newer], None).
Proof.
  intros start older newer.
  split; [vm_compute; reflexivity|].
  split; [vm_compute; reflexivity|].
  apply (unsorted_stream_filters (λ _, Some start) iso8601 None start
           [older; newer; newer] eq_refl).
  repeat constructor.
  - exists (VStr "2023-01-09T00:00:00+00:00"), (mk_datetime 1673222400 (Some 0)), false.
    repeat split; vm_compute; reflexivity.
  - exists (VStr "2023-01-11T00:00:00+00:00"), (mk_datetime 1673395200 (Some 0)), true.
    repeat split; vm_compute; reflexivity.
  - exists (VStr "2023-01-11T00:00:00+00:00"), (mk_datetime 1673395200 (Some 0)), true.
    repeat split; vm_compute; reflexivity.
Defined.

(** C8 fails on reports_unsubscribes: [get_records] computes the null-coerced
    record but yields the fetched one, so an empty string reaches the
    output. *)
Theorem unsubscribes_emits_uncoerced :
  let start := mk_datetime 1673308800 (Some 0) in
  let record : gmap string pyval :=
    {[ "email_id" := VStr "b"; "reason" := VStr "";
       "timestamp" := VStr "2023-01-11T00:00:00+00:00" ]} in
  ReportsUnsubscribes_get_records (λ _, Some start) iso8601 None [record]
    = ([record], None)
  ∧ record !! "reason" = Some (VStr "")
  ∧ post_process record !! "reason" = Some VNone.
Proof. repeat split; vm_compute; reflexivity. Qed.

(** * Further properties *)

(** ** The request loop on arbitrary responses *)

Lemma advance_inv pg r pg' :
  advance pg r = Ok pg' →
  pg_response_key pg' = pg_response_key pg
  ∧ page_size_of pg' = page_size_of pg
  ∧ ((finished pg' = true ∧ has_more pg r = Ok 0%nat)
     ∨ (finished pg' = false
        ∧ current_value pg' = current_value pg + page_size_of pg
        ∧ ∃ n, has_more pg r = Ok (S n))).
Proof.
  unfold advance. destruct (has_more pg r) as [n|e]; simpl; [|done].
  destruct n as [|n]; simpl; intros [= <-]; simpl.
  - split; [done|]. split; [done|]. by left.
  - split; [done|]. split; [done|]. right. split; [done|]. split; [done|].
    by exists n.
Qed.

Lemma has_more_key pg pg' r :
  pg_response_key pg = pg_response_key pg' → has_more pg r = has_more pg' r.
Proof. intros H. unfold has_more. by rewrite H. Qed.

Lemma paginate_segment (resps : list response) : ∀ pg,
  page_size_of pg = PAGE_SIZE →
  ∃ n, (n ≤ length resps)%nat
       ∧ (paginate pg resps).1
         = (λ i, current_value pg + PAGE_SIZE * Z.of_nat i) <$> seq 0 n.
Proof.
  induction resps as [|r resps IH]; intros pg Hsize.
  - exists 0%nat. split; [done|]. simpl. by destruct (finished pg).
  - cbn [paginate]. destruct (finished pg).
    { exists 0%nat. split; [simpl; lia | done]. }
    destruct (advance pg r) as [pg'|e] eqn:Hadv.
    + destruct (advance_inv pg r pg' Hadv) as (_ & Hsize' & Hcase).
      destruct Hcase as [[Hfin _]|(Hfin & Hval & _)].
      * rewrite (paginate_finished pg' resps Hfin).
        exists 1%nat. split; [simpl; lia|]. simpl. do 2 f_equal. lia.
      * destruct (IH pg') as (n & Hn & Htoks); [congruence|].
        destruct (paginate pg' resps) as [toks o]. simpl in *.
        exists (S n). split; [lia|].
        rewrite offsets_from_cons, Htoks, Hval, Hsize. done.
    + exists 1%nat. split; [simpl; lia|]. simpl. do 2 f_equal. lia.
Qed.

Lemma request_records_segment (self : stream) (resps : list response) :
  ∃ n, (n ≤ length resps)%nat ∧ (request_records self resps).1 = offsets n.
Proof.
  destruct (paginate_segment resps (get_new_paginator self) eq_refl)
    as (n & Hn & Htoks).
  exists n. split; [done|]. unfold request_records. rewrite Htoks.
  apply offsets_from_zero.
Qed.

(** X1: whatever the server answers, the tokens requested by one execution
    are an initial segment of 0, 1000, 2000, ..., with at most one request
    per response. *)
Theorem tokens_initial_segment (self : stream) (resps : list response) :
  ∃ n, (n ≤ length resps)%nat
       ∧ (request_records self resps).1 = offsets n
       ∧ ∀ i tok, (request_records self resps).1 !! i = Some tok →
                  tok = 1000 * Z.of_nat i.
Proof.
  destruct (request_records_segment self resps) as (n & Hn & Hseg).
  exists n. split; [done|]. split; [done|].
  intros i tok. rewrite Hseg. unfold offsets. rewrite list_lookup_fmap.
  destruct (seq 0 n !! i) as [j|] eqn:Hj; simpl; [|done].
  apply lookup_seq in Hj as [-> _]. by intros [= <-].
Qed.

Lemma paginate_awaiting (self : stream) (resps : list response) : ∀ pg,
  pg_response_key pg = response_key self → finished pg = false →
  (paginate pg resps).2 = Awaiting ↔ Forall (has_data self) resps.
Proof.
  induction resps as [|r resps IH]; intros pg Hkey Hfin.
  - simpl. rewrite Hfin. simpl. split; [by constructor | done].
  - cbn [paginate]. rewrite Hfin.
    assert (Hmore : has_more pg r = has_more (get_new_paginator self) r)
      by (by apply has_more_key).
    destruct (advance pg r) as [pg'|e] eqn:Hadv.
    + destruct (advance_inv pg r pg' Hadv) as (Hkey' & _ & Hcase).
      destruct Hcase as [[Hfin' H0]|(Hfin' & _ & n & Hn)].
      * rewrite (paginate_finished pg' resps Hfin'). simpl.
        split; [done|]. intros Hall. apply Forall_cons in Hall as [[n Hn] _].
        congruence.
      * specialize (IH pg' (eq_trans Hkey' Hkey) Hfin').
        destruct (paginate pg' resps) as [toks o]. simpl in *.
        rewrite IH. split.
        -- intros Hall. constructor; [|done]. exists n. congruence.
        -- intros Hall. by apply Forall_cons in Hall as [_ Hall].
    + simpl. split; [done|]. intros Hall.
      apply Forall_cons in Hall as [[n Hn] _].
      unfold advance in Hadv. rewrite Hmore, Hn in Hadv. done.
Qed.

(** X2: the loop is still waiting for a response after the given ones
    exactly when every one of them had a positive length under the response
    key; any other response (length zero, or an exception) ends it. *)
Theorem awaiting_iff_all_have_data (self : stream) (resps : list response) :
  (request_records self resps).2 = Awaiting ↔ Forall (has_data self) resps.
Proof. by apply paginate_awaiting. Qed.

Lemma awaiting_iff_all_have_data_witness :
  (request_records ListsStream
     [ mk_response (VDict {[ "lists" := VList [VInt 1] ]});
       mk_response (VDict {[ "lists" := VStr "more" ]}) ]).2 = Awaiting.
Proof.
  apply awaiting_iff_all_have_data.
  repeat constructor; eexists; vm_compute; reflexivity.
Defined.

Lemma offsets_lookup (n i : nat) (tok : Z) :
  offsets n !! i = Some tok → tok = 1000 * Z.of_nat i.
Proof.
  unfold offsets. rewrite list_lookup_fmap.
  destruct (seq 0 n !! i) as [j|] eqn:Hj; simpl; [|done].
  apply lookup_seq in Hj as [-> _]. by intros [= <-].
Qed.

Lemma url_params_offset get_starting_timestamp self context tok :
  get_url_params get_starting_timestamp self context tok !! "offset"
  = if truthy tok then Some tok else None.
Proof.
  unfold get_url_params. pose proof (base_params_offset self tok) as H.
  destruct self; by simplify_map_eq.
Qed.

Lemma url_params_count get_starting_timestamp self context tok :
  get_url_params get_starting_timestamp self context tok !! "count"
  = Some (VInt PAGE_SIZE).
Proof.
  unfold get_url_params. pose proof (base_params_count self tok) as H.
  destruct self; by simplify_map_eq.
Qed.

(** X3: in one execution the first request carries no [offset] parameter
    and the request number [i > 0] carries [offset = 1000 * i]; every
    request carries [count = 1000]. *)
Theorem offset_param_of_request
    (get_starting_timestamp : option (gmap string pyval) → option datetime)
    (self : stream) (context : option (gmap string pyval))
    (resps : list response) (i : nat) (tok : Z) :
  (request_records self resps).1 !! i = Some tok →
  let params := get_url_params get_starting_timestamp self context (VInt tok) in
  params !! "offset"
    = match i with O => None | S _ => Some (VInt (1000 * Z.of_nat i)) end
  ∧ params !! "count" = Some (VInt 1000).
Proof.
  intros Htok params.
  destruct (request_records_segment self resps) as (n & _ & Hseg).
  rewrite Hseg in Htok. apply offsets_lookup in Htok.
  subst params. rewrite url_params_offset, url_params_count.
  split; [|done]. subst tok. simpl.
  destruct i; [done|]. by destruct (Z.eqb_spec (1000 * Z.of_nat (S i)) 0); [lia|].
Qed.

Lemma tokens_initial_segment_witness :
  let resps :=
    [ mk_response (VDict {[ "campaigns" := VList [VInt 1] ]});
      mk_response (VList []);
      mk_response (VDict {[ "campaigns" := VList [VInt 2] ]}) ] in
  ∃ n, (n ≤ length resps)%nat
       ∧ (request_records CampaignsStream resps).1 = offsets n
       ∧ ∀ i tok, (request_records CampaignsStream resps).1 !! i = Some tok →
                  tok = 1000 * Z.of_nat i.
Proof. intros resps. apply (tokens_initial_segment CampaignsStream resps). Defined.

Lemma offset_param_of_request_witness :
  let resps :=
    [ mk_response (VDict {[ "members" := VList [VInt 1] ]});
      mk_response (VDict {[ "members" := VList [VInt 2] ]});
      mk_response (VDict {[ "members" := VList [] ]}) ] in
  let params := get_url_params (λ _, None) ListsMembersStream None (VInt 2000) in
  params !! "offset" = Some (VInt 2000) ∧ params !! "count" = Some (VInt 1000).
Proof.
  intros resps.
  apply (offset_param_of_request (λ _, None) ListsMembersStream None resps 2%nat 2000).
  reflexivity.
Defined.

(** ** More on the query parameters *)

(** X4: the query parameters are [count] and [exclude_fields], [offset] when
    the token is truthy, and the filter of the stream when it has one; no
    other parameter is ever sent. *)
Theorem url_params_keys
    (get_starting_timestamp : option (gmap string pyval) → option datetime)
    (self : stream) (context : option (gmap string pyval)) (token : pyval) :
  dom (get_url_params get_starting_timestamp self context token)
  = ({[ "count"; "exclude_fields" ]} : gset string)
    ∪ (if truthy token then {[ "offset" ]} else ∅)
    ∪ match self with
      | ReportsEmailActivity | ReportsUnsubscribes => {[ "since" ]}
      | ListsMembersStream => {[ "since_last_changed" ]}
      | CampaignsStream | ListsStream => ∅
      end.
Proof.
  unfold get_url_params, MailchimpStream_get_url_params.
  destruct self; simpl; destruct (truthy token);
    rewrite ?dom_insert_L, ?dom_empty_L; set_solver.
Qed.

(** ** More on null coercion *)

Lemma null_if_empty_not_empty v : null_if_empty v ≠ VStr "".
Proof.
  unfold null_if_empty. destruct (is_empty_str v) eqn:E; [done|].
  intros ->. discriminate E.
Qed.

Lemma post_process_lookup_not_empty (row : gmap string pyval) k :
  post_process row !! k ≠ Some (VStr "").
Proof.
  rewrite post_process_lookup. destruct (row !! k) as [v|]; simpl; [|done].
  intros [= H]. by apply (null_if_empty_not_empty v).
Qed.

(** X5: after null coercion no top-level value of the record is the empty
    string, and the record has as many fields as before. *)
Theorem post_process_no_empty_string (row : gmap string pyval) :
  (∀ k, post_process row !! k ≠ Some (VStr ""))
  ∧ size (post_process row) = size row.
Proof.
  split; [apply post_process_lookup_not_empty|].
  unfold post_process. apply map_size_fmap.
Qed.

(** X6: null coercion leaves a record unchanged exactly when none of its
    top-level values is the empty string. *)
Theorem post_process_fixed_iff (row : gmap string pyval) :
  post_process row = row ↔ ∀ k, row !! k ≠ Some (VStr "").
Proof.
  split.
  - intros Heq k. rewrite <- Heq. apply post_process_lookup_not_empty.
  - intros Hno. apply map_eq. intros k. rewrite post_process_lookup.
    destruct (row !! k) as [v|] eqn:Hk; simpl; [|done].
    rewrite null_if_empty_other; [done|]. intros ->. by apply (Hno k).
Qed.

Lemma post_process_fixed_iff_witness :
  post_process {[ "id" := VStr "a"; "stats" := VDict {[ "note" := VStr "" ]} ]}
  = ({[ "id" := VStr "a"; "stats" := VDict {[ "note" := VStr "" ]} ]}
       : gmap string pyval).
Proof.
  apply post_process_fixed_iff. intros k.
  destruct (decide (k = "id")) as [->|]; [done|].
  destruct (decide (k = "stats")) as [->|]; [done|].
  by rewrite lookup_insert_ne, lookup_singleton_ne by done.
Defined.

(** X7: null coercion commutes with the dictionary operations used around
    it: merging two coerced dictionaries is coercing their merge, and setting
    a key before coercion is setting the coerced value after it. *)
Theorem post_process_commutes (a b : gmap string pyval) (k : string) (v : pyval) :
  post_process (dict_unpack a b) = dict_unpack (post_process a) (post_process b)
  ∧ post_process (<[k := v]> a) = <[k := null_if_empty v]> (post_process a)
  ∧ post_process (delete k a) = delete k (post_process a).
Proof.
  unfold post_process, dict_unpack. split; [|split].
  - apply map_fmap_union.
  - apply fmap_insert.
  - apply fmap_delete.
Qed.

(** ** More on the expansion of reports_email_activity *)

Lemma expand_record_unsized (record : gmap string pyval) (v : pyval) :
  record !! "activity" = Some v →
  v = VNone ∨ (∃ b, v = VBool b) ∨ (∃ z, v = VInt z) ∨ (∃ s, v = VStr s) →
  expand_record record = ([], Some TypeError).
Proof.
  intros Hact Hv. unfold expand_record. rewrite post_process_lookup, Hact. simpl.
  destruct Hv as [->|[[b ->]|[[z ->]|[s ->]]]]; try done.
  destruct s as [|c s]; done.
Qed.

(** X8: a record whose [activity] is [null], a boolean, a number or a string
    makes [get_records] raise [TypeError] without emitting anything for it;
    this includes the empty string, which the null coercion has turned into
    [None] before the loop. *)
Theorem activity_not_iterable (record : gmap string pyval) (v : pyval)
    (rest : list (gmap string pyval)) :
  record !! "activity" = Some v →
  v = VNone ∨ (∃ b, v = VBool b) ∨ (∃ z, v = VInt z) ∨ (∃ s, v = VStr s) →
  ReportsEmailActivity_get_records (record :: rest) = ([], Some TypeError).
Proof.
  intros Hact Hv. simpl. by rewrite (expand_record_unsized record v Hact Hv).
Qed.

Lemma activity_not_iterable_witness :
  ReportsEmailActivity_get_records
    ({[ "campaign_id" := VStr "x"; "activity" := VStr "" ]}
     :: [ {[ "campaign_id" := VStr "y";
             "activity" := VList [VDict {[ "action" := VStr "open" ]}] ]} ])
  = ([], Some TypeError).
Proof.
  apply (activity_not_iterable _ (VStr "")); [reflexivity|].
  right; right; right. by exists "".
Defined.

(** X9: a record with an empty [activity] list contributes no output, and
    the generator goes on with the next record. *)
Theorem empty_activity_is_skipped (record : gmap string pyval)
    (rest : list (gmap string pyval)) :
  record !! "activity" = Some (VList []) →
  ReportsEmailActivity_get_records (record :: rest)
  = ReportsEmailActivity_get_records rest.
Proof.
  intros Hact.
  rewrite (get_records_cons_ok record rest []
             (expand_record_list record [] Hact)).
  simpl. by destruct (ReportsEmailActivity_get_records rest).
Qed.

Lemma empty_activity_is_skipped_witness :
  ReportsEmailActivity_get_records
    ({[ "campaign_id" := VStr "x"; "activity" := VList [] ]}
     :: [ {[ "campaign_id" := VStr "y";
             "activity" := VList [VDict {[ "action" := VStr "open" ]}] ]} ])
  = ReportsEmailActivity_get_records
      [ {[ "campaign_id" := VStr "y";
           "activity" := VList [VDict {[ "action" := VStr "open" ]}] ]} ].
Proof. apply empty_activity_is_skipped. reflexivity. Defined.

Lemma yield_merged_stops (parent : gmap string pyval)
    (good : list (gmap string pyval)) (bad : pyval) (more : list pyval) :
  (∀ d, bad ≠ VDict d) →
  yield_merged parent ((VDict <$> good) ++ bad :: more)
  = (dict_unpack parent <$> good, Some TypeError).
Proof.
  intros Hbad. induction good as [|a good IH]; csimpl.
  - destruct bad; try done. by destruct (Hbad d).
  - by rewrite IH.
Qed.

(** X10: when an item of the [activity] list is not an object, the records
    of the items before it have been emitted and the generator ends with
    [TypeError]; the items after it and the following records are not
    processed. *)
Theorem activity_item_not_object (record : gmap string pyval)
    (good : list (gmap string pyval)) (bad : pyval) (more : list pyval)
    (rest : list (gmap string pyval)) :
  record !! "activity" = Some (VList ((VDict <$> good) ++ bad :: more)) →
  (∀ d, bad ≠ VDict d) →
  ReportsEmailActivity_get_records (record :: rest)
  = (dict_unpack (post_process (delete "activity" record)) <$> good,
     Some TypeError).
Proof.
  intros Hact Hbad. simpl. unfold expand_record.
  rewrite post_process_lookup, Hact. simpl.
  rewrite yield_merged_stops by done. by rewrite post_process_delete.
Qed.

Lemma activity_item_not_object_witness :
  ReportsEmailActivity_get_records
    ({[ "campaign_id" := VStr "x";
        "activity" := VList ((VDict <$> [ {[ "action" := VStr "open" ]} ])
                             ++ VStr "click" :: [VDict {[ "action" := VStr "bounce" ]}]) ]}
     :: [])
  = ([ {[ "campaign_id" := VStr "x"; "action" := VStr "open" ]} ], Some TypeError).
Proof.
  rewrite (activity_item_not_object _ [ {[ "action" := VStr "open" ]} ]
             (VStr "click") [VDict {[ "action" := VStr "bounce" ]}] []);
    [vm_compute; reflexivity | reflexivity | done].
Defined.

Lemma get_records_in_expand (records : list (gmap string pyval)) :
  ∀ out, out ∈ (ReportsEmailActivity_get_records records).1 →
         ∃ record, record ∈ records ∧ out ∈ (expand_record record).1.
Proof.
  induction records as [|r records IH]; intros out Hout; simpl in Hout.
  - by apply elem_of_nil in Hout.
  - destruct (expand_record r) as [o [e|]] eqn:Hexp.
    + exists r. split; [by left|]. by rewrite Hexp.
    + destruct (ReportsEmailActivity_get_records records) as [more e].
      simpl in *. apply elem_of_app in Hout as [Hout|Hout].
      * exists r. split; [by left|]. by rewrite Hexp.
      * destruct (IH out Hout) as (r' & Hin & Hr'). exists r'. split; [by right|done].
Qed.

Lemma yield_merged_in (parent : gmap string pyval) (items : list pyval) :
  ∀ out, out ∈ (yield_merged parent items).1 →
         ∃ a, VDict a ∈ items ∧ out = dict_unpack parent a.
Proof.
  induction items as [|x items IH]; intros out Hout; simpl in Hout.
  - by apply elem_of_nil in Hout.
  - destruct x as [| | | | |a|]; try by apply elem_of_nil in Hout.
    destruct (yield_merged parent items) as [more e]. simpl in *.
    apply elem_of_cons in Hout as [->|Hout].
    + exists a. split; [by left|done].
    + destruct (IH out Hout) as (a' & Hin & ->). exists a'. split; [by right|done].
Qed.

Lemma iterate_object_item (acts : pyval) (items : list pyval)
    (item : gmap string pyval) :
  iterate acts = Ok items → VDict item ∈ items → acts = VList items.
Proof.
  destruct acts as [| | |s|l|d|]; simpl; try done.
  - intros [= <-] Hin. apply list_elem_of_fmap in Hin as (c & Hc & _). done.
  - by intros [= <-].
  - intros [= <-] Hin. apply list_elem_of_fmap in Hin as (kv & Hkv & _). done.
Qed.

Lemma null_if_empty_list (v : pyval) (l : list pyval) :
  null_if_empty v = VList l → v = VList l.
Proof. unfold null_if_empty. by destruct (is_empty_str v). Qed.

(** X11: whatever the fetched records hold, every record emitted by
    [ReportsEmailActivity.get_records] comes from a fetched record whose
    [activity] is a list, and is the merge of one object of that list with
    the record's other, null-coerced fields: its [activity] entry is the one
    of the object, never the list of the parent, and a field that only the
    parent has is never the empty string. *)
Theorem emitted_is_merge (records : list (gmap string pyval))
    (out : gmap string pyval) :
  out ∈ (ReportsEmailActivity_get_records records).1 →
  ∃ record items item,
    record ∈ records
    ∧ record !! "activity" = Some (VList items)
    ∧ VDict item ∈ items
    ∧ out = dict_unpack (post_process (delete "activity" record)) item
    ∧ dom out = dom item ∪ (dom record ∖ {[ "activity" ]})
    ∧ out !! "activity" = item !! "activity"
    ∧ ∀ k, item !! k = None → out !! k ≠ Some (VStr "").
Proof.
  intros Hout.
  destruct (get_records_in_expand records out Hout) as (record & Hin & Hexp).
  unfold expand_record in Hexp. rewrite post_process_lookup in Hexp.
  destruct (record !! "activity") as [v|] eqn:Hact; simpl in Hexp;
    [|by apply elem_of_nil in Hexp].
  destruct (iterate (null_if_empty v)) as [items|e] eqn:Hiter; simpl in Hexp;
    [|by apply elem_of_nil in Hexp].
  destruct (yield_merged_in _ items out Hexp) as (item & Hitem & ->).
  apply (iterate_object_item _ _ item) in Hiter; [|done].
  apply null_if_empty_list in Hiter as ->.
  exists record, items, item. rewrite post_process_delete.
  split; [done|]. split; [done|]. split; [done|]. split; [done|].
  split; [|split].
  - unfold dict_unpack, post_process.
    by rewrite dom_union_L, dom_fmap_L, dom_delete_L.
  - rewrite dict_unpack_lookup. destruct (item !! "activity"); [done|].
    by rewrite post_process_lookup, lookup_delete_eq.
  - intros k Hk. rewrite dict_unpack_lookup, Hk.
    apply post_process_lookup_not_empty.
Qed.

Lemma emitted_is_merge_witness :
  ∃ record items item,
    record ∈ [ ({[ "campaign_id" := VStr ""; "activity" :=
                    VList [VDict {[ "action" := VStr "open" ]}] ]}
                  : gmap string pyval) ]
    ∧ record !! "activity" = Some (VList items)
    ∧ VDict item ∈ items
    ∧ ({[ "campaign_id" := VNone; "action" := VStr "open" ]} : gmap string pyval)
      = dict_unpack (post_process (delete "activity" record)) item
    ∧ dom ({[ "campaign_id" := VNone; "action" := VStr "open" ]} : gmap string pyval)
      = dom item ∪ (dom record ∖ {[ "activity" ]})
    ∧ ({[ "campaign_id" := VNone; "action" := VStr "open" ]} : gmap string pyval)
        !! "activity" = item !! "activity"
    ∧ ∀ k, item !! k = None →
           ({[ "campaign_id" := VNone; "action" := VStr "open" ]} : gmap string pyval)
             !! k ≠ Some (VStr "").
Proof.
  apply emitted_is_merge. vm_compute. left.
Defined.

(** X12: over fetched records that all carry a list of objects as
    [activity], [get_records] ends normally and emits the expansions of the
    records one after the other; the number of emitted records is the total
    number of activity items. *)
Theorem expansion_of_all_records (records : list (gmap string pyval))
    (itemss : list (list (gmap string pyval))) :
  Forall2 (λ record items,
             record !! "activity" = Some (VList (VDict <$> items)))
          records itemss →
  ReportsEmailActivity_get_records records
  = (mjoin (zip_with
              (λ record items,
                 dict_unpack (post_process (delete "activity" record)) <$> items)
              records itemss),
     None)
  ∧ length (ReportsEmailActivity_get_records records).1
    = sum_list (length <$> itemss).
Proof.
  induction 1 as [|record items records itemss Hact _ [IH IHlen]];
    [done|].
  pose proof (expand_record_list record items Hact) as Hexp.
  rewrite post_process_delete in Hexp.
  rewrite (get_records_cons_ok record records _ Hexp).
  split.
  - by rewrite IH.
  - cbn [fst]. rewrite length_app, length_fmap, IHlen. done.
Qed.

Lemma expansion_of_all_records_witness :
  length (ReportsEmailActivity_get_records
            [ {[ "campaign_id" := VStr "x";
                 "activity" := VList (VDict <$> [ {[ "action" := VStr "open" ]};
                                                  {[ "action" := VStr "click" ]} ]) ]};
              {[ "campaign_id" := VStr "y"; "activity" := VList (VDict <$> []) ]};
              {[ "campaign_id" := VStr "z";
                 "activity" := VList (VDict <$> [ {[ "action" := VStr "bounce" ]} ]) ]} ]).1
  = 3%nat.
Proof.
  apply (expansion_of_all_records _
           [ [ {[ "action" := VStr "open" ]}; {[ "action" := VStr "click" ]} ];
             []; [ {[ "action" := VStr "bounce" ]} ] ]).
  repeat constructor.
Defined.

(** ** More on the filter of reports_unsubscribes *)

Lemma unsubscribes_cons get_starting_timestamp isoparse context
    (record : gmap string pyval) rest :
  ReportsUnsubscribes_get_records get_starting_timestamp isoparse context
    (record :: rest)
  = match timestamp_test get_starting_timestamp isoparse context record with
    | Raise e => ([], Some e)
    | Ok keep =>
        let run := ReportsUnsubscribes_get_records get_starting_timestamp
                     isoparse context rest in
        (if keep then record :: run.1 else run.1, run.2)
    end.
Proof.
  cbn [ReportsUnsubscribes_get_records]. fold (timestamp_test
    get_starting_timestamp isoparse context record).
  destruct (timestamp_test get_starting_timestamp isoparse context record);
    [|done].
  by destruct (ReportsUnsubscribes_get_records _ _ context rest).
Qed.

Lemma unsubscribes_sublist get_starting_timestamp isoparse context
    (records : list (gmap string pyval)) :
  sublist (ReportsUnsubscribes_get_records get_starting_timestamp isoparse
             context records).1 records.
Proof.
  induction records as [|record rest IH]; [done|].
  rewrite unsubscribes_cons.
  destruct (timestamp_test get_starting_timestamp isoparse context record)
    as [[|]|e]; simpl.
  - by apply sublist_skip.
  - by apply sublist_cons.
  - apply sublist_nil_l.
Qed.

(** X13: whatever the parser, the starting value and the fetched records
    are, what [ReportsUnsubscribes.get_records] emits is a subsequence of the
    fetched records: records are dropped, never changed, added or
    reordered. *)
Theorem unsubscribes_emits_subsequence
    (get_starting_timestamp : option (gmap string pyval) → option datetime)
    (isoparse : pyval → res datetime)
    (context : option (gmap string pyval))
    (records : list (gmap string pyval)) :
  sublist (ReportsUnsubscribes_get_records get_starting_timestamp isoparse
             context records).1 records
  ∧ (length (ReportsUnsubscribes_get_records get_starting_timestamp isoparse
               context records).1 ≤ length records)%nat.
Proof.
  pose proof (unsubscribes_sublist get_starting_timestamp isoparse context
                records) as Hsub.
  split; [done | by apply sublist_length].
Qed.

(** X14: without a starting timestamp the comparison of the first fetched
    record raises [TypeError]: nothing is emitted. *)
Theorem unsubscribes_without_start
    (get_starting_timestamp : option (gmap string pyval) → option datetime)
    (isoparse : pyval → res datetime)
    (context : option (gmap string pyval))
    (record : gmap string pyval) (rest : list (gmap string pyval)) ts t :
  get_starting_timestamp context = None →
  record !! "timestamp" = Some ts → isoparse ts = Ok t →
  ReportsUnsubscribes_get_records get_starting_timestamp isoparse context
    (record :: rest) = ([], Some TypeError).
Proof.
  intros Hnone Hts Ht. rewrite unsubscribes_cons.
  unfold timestamp_test, dict_getitem. rewrite Hts. simpl. rewrite Ht. simpl. by rewrite Hnone.
Qed.

Lemma unsubscribes_without_start_witness :
  ReportsUnsubscribes_get_records (λ _, None) iso8601 None
    ({[ "email_id" := VStr "a"; "timestamp" := VStr "2023-01-11T00:00:00+00:00" ]}
     :: []) = ([], Some TypeError).
Proof.
  apply (unsubscribes_without_start _ _ _ _ _
           (VStr "2023-01-11T00:00:00+00:00") (mk_datetime 1673395200 (Some 0)));
    [reflexivity | reflexivity | vm_compute; reflexivity].
Defined.

Lemma unsubscribes_app get_starting_timestamp isoparse context
    (pre rest : list (gmap string pyval)) out :
  ReportsUnsubscribes_get_records get_starting_timestamp isoparse context pre
    = (out, None) →
  ReportsUnsubscribes_get_records get_starting_timestamp isoparse context
    (pre ++ rest)
  = (out ++ (ReportsUnsubscribes_get_records get_starting_timestamp isoparse
               context rest).1,
     (ReportsUnsubscribes_get_records get_starting_timestamp isoparse
        context rest).2).
Proof.
  revert out. induction pre as [|r pre IH]; intros out H.
  - injection H as <-. simpl.
    by destruct (ReportsUnsubscribes_get_records _ _ context rest).
  - rewrite <- app_comm_cons, unsubscribes_cons. rewrite unsubscribes_cons in H.
    destruct (timestamp_test get_starting_timestamp isoparse context r)
      as [keep|e]; [|done].
    destruct (ReportsUnsubscribes_get_records _ _ context pre) as [more e] eqn:Hpre.
    simpl in H. injection H as <- ->. rewrite (IH more eq_refl). simpl.
    by destruct keep.
Qed.

(** X15: a fetched record without a [timestamp] field, or whose timestamp
    the parser rejects, ends [ReportsUnsubscribes.get_records] with that
    exception; the records kept before it have been emitted, the later ones
    are not looked at. *)
Theorem unsubscribes_bad_timestamp
    (get_starting_timestamp : option (gmap string pyval) → option datetime)
    (isoparse : pyval → res datetime)
    (context : option (gmap string pyval))
    (pre : list (gmap string pyval)) (record : gmap string pyval)
    (rest : list (gmap string pyval)) (out : list (gmap string pyval)) :
  ReportsUnsubscribes_get_records get_starting_timestamp isoparse context pre
    = (out, None) →
  (record !! "timestamp" = None →
   ReportsUnsubscribes_get_records get_starting_timestamp isoparse context
     (pre ++ record :: rest) = (out, Some KeyError))
  ∧ (∀ ts e, record !! "timestamp" = Some ts → isoparse ts = Raise e →
     ReportsUnsubscribes_get_records get_starting_timestamp isoparse context
       (pre ++ record :: rest) = (out, Some e)).
Proof.
  intros Hpre. split.
  - intros Hts. rewrite (unsubscribes_app _ _ _ pre _ out Hpre).
    rewrite unsubscribes_cons. unfold timestamp_test, dict_getitem.
    rewrite Hts. simpl. by rewrite app_nil_r.
  - intros ts e Hts He. rewrite (unsubscribes_app _ _ _ pre _ out Hpre).
    rewrite unsubscribes_cons. unfold timestamp_test, dict_getitem.
    rewrite Hts. simpl. rewrite He. simpl. by rewrite app_nil_r.
Qed.

Lemma unsubscribes_bad_timestamp_witness :
  let start := mk_datetime 1673308800 (Some 0) in
  let first : gmap string pyval :=
    {[ "email_id" := VStr "a"; "timestamp" := VStr "2023-01-11T00:00:00+00:00" ]} in
  ReportsUnsubscribes_get_records (λ _, Some start) iso8601 None
    ([first] ++ {[ "email_id" := VStr "b" ]} :: [first])
  = ([first], Some KeyError)
  ∧ ReportsUnsubscribes_get_records (λ _, Some start) iso8601 None
      ([first] ++ {[ "email_id" := VStr "c"; "timestamp" := VStr "" ]} :: [first])
    = ([first], Some ValueError).
Proof.
  intros start first. split.
  - apply unsubscribes_bad_timestamp; [vm_compute; reflexivity | reflexivity].
  - eapply unsubscribes_bad_timestamp;
      [vm_compute; reflexivity | reflexivity | vm_compute; reflexivity].
Defined.

(** X16: the filter of the unsorted stream does not depend on the order of
    arrival: over the same fetched records in another order,
    [ReportsUnsubscribes.get_records] emits the same records, up to order. *)
Theorem unsubscribes_order_independent
    (get_starting_timestamp : option (gmap string pyval) → option datetime)
    (isoparse : pyval → res datetime)
    (context : option (gmap string pyval)) (sv : datetime)
    (records records' : list (gmap string pyval)) :
  get_starting_timestamp context = Some sv →
  Forall (comparable isoparse sv) records →
  records ≡ₚ records' →
  ∃ out out',
    ReportsUnsubscribes_get_records get_starting_timestamp isoparse context
      records = (out, None)
    ∧ ReportsUnsubscribes_get_records get_starting_timestamp isoparse context
        records' = (out', None)
    ∧ out ≡ₚ out'.
Proof.
  intros Hsv Hall Hperm.
  assert (Hall' : Forall (comparable isoparse sv) records')
    by (by rewrite <- Hperm).
  eexists _, _.
  split; [by apply unsubscribes_filter_eq|].
  split; [by apply unsubscribes_filter_eq|].
  by rewrite Hperm.
Qed.

Lemma unsubscribes_order_independent_witness :
  let start := mk_datetime 1673308800 (Some 0) in
  let older : gmap string pyval :=
    {[ "email_id" := VStr "a"; "timestamp" := VStr "2023-01-09T00:00:00+00:00" ]} in
  let newer : gmap string pyval :=
    {[ "email_id" := VStr "b"; "timestamp" := VStr "2023-01-11T00:00:00+00:00" ]} in
  ∃ out out',
    ReportsUnsubscribes_get_records (λ _, Some start) iso8601 None [older; newer]
      = (out, None)
    ∧ ReportsUnsubscribes_get_records (λ _, Some start) iso8601 None [newer; older]
        = (out', None)
    ∧ out ≡ₚ out'.
Proof.
  intros start older newer.
  apply (unsubscribes_order_independent (λ _, Some start) iso8601 None start
           [older; newer] [newer; older] eq_refl).
  - repeat constructor.
    + exists (VStr "2023-01-09T00:00:00+00:00"), (mk_datetime 1673222400 (Some 0)), false.
      repeat split; vm_compute; reflexivity.
    + exists (VStr "2023-01-11T00:00:00+00:00"), (mk_datetime 1673395200 (Some 0)), true.
      repeat split; vm_compute; reflexivity.
  - apply Permutation_swap.
Defined.

(** ** Context derivation for every parent and child stream *)

(** X17: [get_child_context] of campaigns and of lists binds one key,
    [campaign_id] resp. [list_id], to the [id] of the record and raises
    [KeyError] when the record has no [id]; the result does not depend on the
    incoming context. *)
Theorem child_context_of_parents (record : gmap string pyval)
    (context : option (gmap string pyval)) :
  CampaignsStream_get_child_context record context
  = match record !! "id" with
    | Some v => Ok {[ "campaign_id" := v ]}
    | None => Raise KeyError
    end
  ∧ ListsStream_get_child_context record context
    = match record !! "id" with
      | Some v => Ok {[ "list_id" := v ]}
      | None => Raise KeyError
      end
  ∧ (∀ self result ctx,
       get_child_context self record context = Some result →
       result = Ok ctx → size ctx = 1%nat ∧ is_Some (record !! "id"))
  ∧ (∀ self context',
       get_child_context self record context
       = get_child_context self record context').
Proof.
  unfold CampaignsStream_get_child_context, ListsStream_get_child_context,
    dict_getitem.
  split; [by destruct (record !! "id")|].
  split; [by destruct (record !! "id")|].
  split.
  - intros self result ctx Hself ->.
    destruct self; simpl in Hself; try done;
      unfold CampaignsStream_get_child_context, ListsStream_get_child_context,
        dict_getitem in Hself;
      destruct (record !! "id") as [v|]; simpl in Hself; try done;
      injection Hself as <-; (split; [apply map_size_singleton | by eexists]).
  - intros self context'. by destruct self.
Qed.

Lemma child_context_of_parents_witness :
  size ({[ "list_id" := VStr "abc" ]} : gmap string pyval) = 1%nat
  ∧ is_Some (({[ "id" := VStr "abc"; "name" := VStr "news" ]}
                : gmap string pyval) !! "id").
Proof.
  destruct (child_context_of_parents
              {[ "id" := VStr "abc"; "name" := VStr "news" ]} None)
    as (_ & _ & Hone & _).
  apply (Hone ListsStream (Ok {[ "list_id" := VStr "abc" ]})); reflexivity.
Defined.

(** X18: for every child stream, the key bound by its parent's
    [get_child_context] is the placeholder of the child's path: with the
    context derived from a parent record whose [id] is a string [s] of
    letters, digits, [-], [.], [_] and [~] (the characters that need no URL
    encoding, which the substitution used here does not perform), the
    child's path is resolved to the path of that parent resource. *)
Theorem child_path_resolves (child parent : stream)
    (record : gmap string pyval) (s : string) :
  parent_stream_type child = Some parent →
  record !! "id" = Some (VStr s) →
  url_safe s = true →
  ∃ ctx,
    get_child_context parent record None = Some (Ok ctx)
    ∧ resolve_path child ctx
      = match child with
        | ReportsEmailActivity => "/reports/" +:+ s +:+ "/email-activity"
        | ReportsUnsubscribes => "/reports/" +:+ s +:+ "/unsubscribed"
        | ListsMembersStream => "/lists/" +:+ s +:+ "/members"
        | CampaignsStream | ListsStream => path child
        end.
Proof.
  intros Hparent Hid _.
  destruct child; simpl in Hparent; try done; injection Hparent as <-; simpl;
    unfold CampaignsStream_get_child_context, ListsStream_get_child_context,
      dict_getitem; rewrite Hid; simpl; (eexists; split; [done|reflexivity]).
Qed.

Lemma child_path_resolves_witness :
  ∃ ctx,
    get_child_context ListsStream {[ "id" := VStr "f3a"; "name" := VStr "news" ]}
      None = Some (Ok ctx)
    ∧ resolve_path ListsMembersStream ctx = "/lists/f3a/members".
Proof.
  apply (child_path_resolves ListsMembersStream ListsStream
           {[ "id" := VStr "f3a"; "name" := VStr "news" ]} "f3a");
    reflexivity.
Defined.

(** ** The base URL, the headers and the catalogue *)

Lemma string_length_app (a b : string) :
  String.length (a +:+ b) = (String.length a + String.length b)%nat.
Proof. induction a as [|c a IH]; simpl; [done | by rewrite IH]. Qed.

Lemma string_app_inj_r (s a b : string) : a +:+ s = b +:+ s → a = b.
Proof.
  revert b. induction a as [|c a IH]; intros [|c' b] H.
  - done.
  - apply (f_equal String.length) in H.
    rewrite !string_length_app in H. simpl in H. lia.
  - apply (f_equal String.length) in H.
    rewrite !string_length_app in H. simpl in H. lia.
  - simpl in H. injection H as -> H. f_equal. by apply IH.
Qed.

(** X19: [url_base] raises [KeyError] when the configuration has no [dc];
    otherwise it is [https://<dc>.api.mailchimp.com/3.0], and two
    configurations have the same base URL only if they name the same data
    centre. *)
Theorem url_base_of_datacentre (config config' : gmap string string) :
  (config !! "dc" = None → url_base config = Raise KeyError)
  ∧ (∀ dc, config !! "dc" = Some dc →
       url_base config = Ok ("https://" +:+ dc +:+ ".api.mailchimp.com/3.0"))
  ∧ (∀ url, url_base config = Ok url → url_base config' = Ok url →
       config !! "dc" = config' !! "dc").
Proof.
  unfold url_base. split; [by intros ->|]. split; [by intros dc ->|].
  intros url.
  destruct (config !! "dc") as [dc|]; [|done].
  destruct (config' !! "dc") as [dc'|]; [|done].
  intros [= <-] [= H]. f_equal. symmetry.
  by apply (string_app_inj_r ".api.mailchimp.com/3.0").
Qed.

Lemma url_base_of_datacentre_witness :
  url_base {[ "api_key" := "k"; "dc" := "us21" ]}
  = Ok "https://us21.api.mailchimp.com/3.0"
  ∧ url_base {[ "api_key" := "k" ]} = Raise KeyError.
Proof.
  destruct (url_base_of_datacentre {[ "api_key" := "k"; "dc" := "us21" ]} ∅)
    as (_ & Hsome & _).
  destruct (url_base_of_datacentre {[ "api_key" := "k" ]} ∅) as (Hnone & _).
  split; [apply (Hsome "us21") | apply Hnone]; reflexivity.
Defined.

(** X20: the headers built by [http_headers] hold [User-Agent], with the
    configured [user_agent], when the configuration has that key (even with
    an empty value), and nothing else: no other configuration value, the API
    key in particular, is copied into them. *)
Theorem http_headers_only_user_agent (config : gmap string string)
    (k v : string) :
  http_headers config !! k = Some v
  ↔ k = "User-Agent" ∧ config !! "user_agent" = Some v.
Proof.
  unfold http_headers. destruct (config !! "user_agent") as [ua|].
  - destruct (decide (k = "User-Agent")) as [->|Hk].
    + rewrite lookup_insert_eq. split; [by intros [= ->] | by intros [_ [= ->]]].
    + rewrite lookup_insert_ne, lookup_empty by done. split; [done | by intros [? _]].
  - rewrite lookup_empty. split; [done | by intros [_ ?]].
Qed.

Lemma http_headers_only_user_agent_witness :
  http_headers {[ "api_key" := "secret"; "dc" := "us21"; "user_agent" := "" ]}
    !! "User-Agent" = Some "".
Proof. apply http_headers_only_user_agent. split; reflexivity. Defined.

(** X21: the catalogue lists each of the five streams once, under pairwise
    different names, and the parent of every child stream is itself in the
    catalogue, ahead of the child. *)
Theorem catalogue_is_consistent :
  (∀ self : stream, self ∈ discover_streams)
  ∧ NoDup discover_streams
  ∧ NoDup (name <$> discover_streams)
  ∧ (∀ child parent (j : nat),
       discover_streams !! j = Some child →
       parent_stream_type child = Some parent →
       ∃ i : nat, (i < j)%nat ∧ discover_streams !! i = Some parent).
Proof.
  split; [|split; [|split]].
  - intros self. unfold discover_streams. destruct self; repeat constructor.
  - apply (bool_decide_unpack _). vm_compute. reflexivity.
  - apply (bool_decide_unpack _). vm_compute. reflexivity.
  - intros child parent j Hj Hparent. unfold discover_streams in *.
    destruct j as [|[|[|[|[|j]]]]]; simpl in Hj; try done;
      injection Hj as <-; simpl in Hparent; try done; injection Hparent as <-.
    + exists 0%nat. split; [lia|done].
    + exists 0%nat. split; [lia|done].
    + exists 3%nat. split; [lia|done].
Qed.

Lemma catalogue_is_consistent_witness :
  ∃ i : nat, (i < 4)%nat ∧ discover_streams !! i = Some ListsStream.
Proof.
  destruct catalogue_is_consistent as (_ & _ & _ & Hparent).
  apply (Hparent ListsMembersStream ListsStream 4%nat); reflexivity.
Defined.

Lemma post_process_no_empty_string_witness :
  post_process {[ "reason" := VStr ""; "email_id" := VStr "b" ]} !! "reason"
  ≠ Some (VStr "").
Proof.
  destruct (post_process_no_empty_string
              {[ "reason" := VStr ""; "email_id" := VStr "b" ]}) as [Hno _].
  apply Hno.
Defined.
